(** * tldr-bot: a shallow embedding of [main.go] and its verified properties

    The bot reacts to Mastodon events: it follows back, answers a mention
    with a summary of the thread, and answers a long post with a TL;DR.
    This file embeds the pure helpers ([countWords], [cleanResponse], the
    reply composition) as Rocq functions, the handlers as programs in a
    small state monad that records every call made to a collaborator, and
    proves the properties the specification states about them.

    Conventions.
    - A Go [string] is modelled by the sequence of runes that [range], the
      [regexp] package and [strings.TrimSpace] iterate over; a rune is its
      code point, a natural number.  String literals of the source are
      written [str "..."].
    - Go's [int] is the 64-bit two's complement integer, a [Z] wrapped by
      [wrap64].
    - A Go [error] is modelled by the text [err.Error()] returns. *)

From Stdlib Require Import List NArith ZArith Bool Lia String Ascii.
Import ListNotations.

Set Implicit Arguments.
Set Warnings "-register-all".

(** ** Strings, runes and the [strings] / [unicode] functions the bot calls *)

Module GoString.

Definition rune := N.
Definition gostring := list rune.

(** A source literal: the runes of an ASCII string constant. *)
Definition str (s : string) : gostring :=
  List.map N_of_ascii (list_ascii_of_string s).

(** A rune literal, ['x'] in the source. *)
Definition chr (a : ascii) : rune := N_of_ascii a.

(** ['\n'] *)
Definition newline : rune := 10%N.

Definition rune_eqb (a b : rune) : bool := N.eqb a b.

(** ["\n"] *)
Definition nl : gostring := [newline].

(** [unicode.IsSpace]: the Latin-1 switch, then the [White_Space] table. *)
Definition unicode_IsSpace (r : rune) : bool :=
  if (r <=? 255)%N then
    ((9 <=? r) && (r <=? 13) || (r =? 32) || (r =? 133) || (r =? 160))%N
  else
    ((r =? 5760) || ((8192 <=? r) && (r <=? 8202)) || (r =? 8232) ||
     (r =? 8233) || (r =? 8239) || (r =? 8287) || (r =? 12288))%N.

(** [strings.HasPrefix], [strings.Contains], [strings.Join]. *)
Fixpoint strings_HasPrefix (s prefix : gostring) {struct prefix} : bool :=
  match prefix, s with
  | [], _ => true
  | p :: ps, c :: cs => rune_eqb c p && strings_HasPrefix cs ps
  | _ :: _, [] => false
  end.

Fixpoint strings_Contains (s substr : gostring) : bool :=
  strings_HasPrefix s substr ||
  match s with
  | [] => false
  | _ :: s' => strings_Contains s' substr
  end.

Fixpoint strings_Join (elems : list gostring) (sep : gostring) : gostring :=
  match elems with
  | [] => []
  | [e] => e
  | e :: rest => e ++ sep ++ strings_Join rest sep
  end.

(** [strings.TrimSpace]: the leading and the trailing runes that satisfy
    [unicode.IsSpace] are cut off. *)
Fixpoint trimLeft (s : gostring) : gostring :=
  match s with
  | c :: s' => if unicode_IsSpace c then trimLeft s' else s
  | [] => []
  end.

Definition strings_TrimSpace (s : gostring) : gostring :=
  rev (trimLeft (rev (trimLeft s))).

(** A left-to-right rewriting scan, shared by [strings.ReplaceAll] and
    [regexp.ReplaceAllString].  [matchAt prev s] tells how many runes a
    match that starts at the current position spans, [prev] being the rune
    just before that position ([None] at the start of the text).  A match
    is replaced by [repl] and the scan resumes behind it; where nothing
    matches, one rune is copied.  [skip] counts the runes of the current
    match that are still to be passed over. *)
Fixpoint rewriteAll (matchAt : option rune -> gostring -> option nat)
    (repl : gostring) (prev : option rune) (skip : nat) (s : gostring)
    : gostring :=
  match skip with
  | S n =>
      match s with
      | c :: s' => rewriteAll matchAt repl (Some c) n s'
      | [] => []
      end
  | O =>
      match matchAt prev s with
      | Some (S n) =>
          repl ++
          match s with
          | c :: s' => rewriteAll matchAt repl (Some c) n s'
          | [] => []
          end
      | Some O =>
          repl ++
          match s with
          | c :: s' => c :: rewriteAll matchAt repl (Some c) 0 s'
          | [] => []
          end
      | None =>
          match s with
          | c :: s' => c :: rewriteAll matchAt repl (Some c) 0 s'
          | [] => []
          end
      end
  end.

(** [strings.ReplaceAll s old new]: the non-overlapping occurrences of
    [old], leftmost first. *)
Definition strings_ReplaceAll (s old new : gostring) : gostring :=
  rewriteAll
    (fun _ t => if strings_HasPrefix t old then Some (List.length old) else None)
    new None 0 s.

(** [fmt.Sprintf] for the verbs the bot uses: [%s] and [%v] print the next
    argument (an error argument is its text); a verb without an argument
    prints [%!v(MISSING)].  No other verb occurs in the source. *)
Fixpoint fmt_Sprintf (format : gostring) (args : list gostring) : gostring :=
  match format with
  | [] => []
  | c :: rest =>
      if rune_eqb c (chr "%") then
        match rest with
        | v :: rest' =>
            if rune_eqb v (chr "s") || rune_eqb v (chr "v") then
              match args with
              | a :: args' => a ++ fmt_Sprintf rest' args'
              | [] => str "%!" ++ v :: str "(MISSING)" ++ fmt_Sprintf rest' []
              end
            else c :: v :: fmt_Sprintf rest' args
        | [] => [c]
        end
      else c :: fmt_Sprintf rest args
  end.

End GoString.
Import GoString.

(** ** The two patterns of [cleanResponse] and Go's [regexp] matching *)

Module Regexp.

(** The syntax the two patterns need.  The operand of [*] and [+] is a
    single-rune class in both of them; a case-folded literal of a [(?i)]
    pattern is the class of its two cases. *)
Inductive regex : Type :=
| Empty
| BeginText                      (* ^      *)
| BeginLine                      (* (?m)^  *)
| Class (p : rune -> bool)
| Cat (r1 r2 : regex)
| Alt (r1 r2 : regex)            (* r1|r2, r1 preferred *)
| Quest (r : regex)              (* r?, greedy *)
| Star (p : rune -> bool)        (* [p]*, greedy *)
| Plus (p : rune -> bool).       (* [p]+, greedy *)

Definition cont := option rune -> gostring -> nat -> option nat.

(** Greedy iteration of a class: as many runes as possible, giving them
    back one by one while the rest of the pattern fails. *)
Fixpoint star (p : rune -> bool) (prev : option rune) (s : gostring)
    (n : nat) (k : cont) : option nat :=
  match s with
  | c :: s' =>
      if p c then
        match star p (Some c) s' (S n) k with
        | Some m => Some m
        | None => k prev s n
        end
      else k prev s n
  | [] => k prev s n
  end.

(** Leftmost-first matching at one position: the match a backtracking
    search finds first, which is the one Go's [regexp] returns.  [prev] is
    the rune before the position, [n] the number of runes matched so far,
    [k] the rest of the pattern. *)
Fixpoint run (r : regex) (prev : option rune) (s : gostring) (n : nat)
    (k : cont) : option nat :=
  match r with
  | Empty => k prev s n
  | BeginText =>
      match prev with
      | None => k prev s n
      | Some _ => None
      end
  | BeginLine =>
      match prev with
      | None => k prev s n
      | Some c => if rune_eqb c newline then k prev s n else None
      end
  | Class p =>
      match s with
      | c :: s' => if p c then k (Some c) s' (S n) else None
      | [] => None
      end
  | Cat r1 r2 => run r1 prev s n (fun prev' s' n' => run r2 prev' s' n' k)
  | Alt r1 r2 =>
      match run r1 prev s n k with
      | Some m => Some m
      | None => run r2 prev s n k
      end
  | Quest r1 =>
      match run r1 prev s n k with
      | Some m => Some m
      | None => k prev s n
      end
  | Star p => star p prev s n k
  | Plus p =>
      match s with
      | c :: s' => if p c then star p (Some c) s' (S n) k else None
      | [] => None
      end
  end.

(** The length of the match that starts at the current position. *)
Definition matchAt (re : regex) (prev : option rune) (s : gostring)
    : option nat :=
  run re prev s 0 (fun _ _ n => Some n).

(** [re.ReplaceAllString(src, repl)] for a template without [$]: matches
    are searched left to right, each search resuming behind the previous
    match.  (After an empty match Go inserts nothing when it touches the
    previous match; the patterns below match no empty string.) *)
Definition ReplaceAllString (re : regex) (src repl : gostring) : gostring :=
  rewriteAll (matchAt re) repl None 0 src.

Definition oneOf (l : list rune) (r : rune) : bool := existsb (rune_eqb r) l.

(** [\s] of the RE2 syntax: [\t\n\f\r ] and nothing else. *)
Definition perlSpace : rune -> bool := oneOf [9; 10; 12; 13; 32]%N.

(** A letter of a [(?i)] pattern. *)
Definition fold (lower upper : ascii) : regex :=
  Class (oneOf [chr lower; chr upper]).

Definition lit (a : ascii) : regex := Class (oneOf [chr a]).

(** [.] without the [s] flag. *)
Definition anyButNewline (r : rune) : bool := negb (rune_eqb r newline).

(** [[:\-\s]] *)
Definition labelTail (r : rune) : bool :=
  oneOf [chr ":"; chr "-"] r || perlSpace r.

End Regexp.
Import Regexp.

(** ** [cleanResponse] and [countWords] *)

(** [regexp.MustCompile(`(?i)(^|\s)?tl;dr[:\-\s]*`)] *)
Definition tldrRegex : regex :=
  Cat (Quest (Alt BeginText (Class perlSpace)))
  (Cat (fold "t" "T") (Cat (fold "l" "L") (Cat (lit ";")
  (Cat (fold "d" "D") (Cat (fold "r" "R") (Star labelTail)))))).

(** [regexp.MustCompile(`(?m)^#+\s*.*\n?`)] *)
Definition headerRegex : regex :=
  Cat BeginLine (Cat (Plus (oneOf [chr "#"])) (Cat (Star perlSpace)
  (Cat (Star anyButNewline) (Quest (Class (oneOf [newline])))))).

Definition cleanResponse (response : gostring) : gostring :=
  let response := ReplaceAllString tldrRegex response (str "") in
  let response := ReplaceAllString headerRegex response (str "") in
  let response := strings_ReplaceAll response (str ".  ") (str ". ") in
  let response := strings_ReplaceAll response (str ",  ") (str ", ") in
  let response := strings_TrimSpace response in
  response.

(** Go's [int]: the increment wraps around at 64 bits. *)
Definition wrap64 (z : Z) : Z := ((z + 2 ^ 63) mod 2 ^ 64 - 2 ^ 63)%Z.

(** The loop of [countWords], with its two variables. *)
Fixpoint countWords_loop (text : gostring) (inWord : bool) (count : Z) : Z :=
  match text with
  | [] => count
  | r :: rest =>
      if unicode_IsSpace r then countWords_loop rest false count
      else if negb inWord then countWords_loop rest true (wrap64 (count + 1))
      else countWords_loop rest inWord count
  end.

Definition countWords (text : gostring) : Z := countWords_loop text false 0.

(** ** The data the handlers see *)

(** The fields of [mastodon.Account], [mastodon.Status], [mastodon.Toot]
    and [mastodon.Notification] that [main.go] reads or writes. *)
Definition ID := gostring.

Record Account : Type := {
  Account_ID : ID;
  Account_Username : gostring;
  Account_Acct : gostring;
  Account_Bot : bool
}.

(** [InReplyToID] is an [interface{}]: [None] is [nil], [Some v] holds the
    value as [%v] prints it. *)
Record Status : Type := {
  Status_ID : ID;
  Status_InReplyToID : option gostring;
  Status_Account : Account;
  Status_Content : gostring;
  Status_Visibility : gostring;
  Status_SpoilerText : gostring
}.

Record Toot : Type := {
  Toot_Status : gostring;
  Toot_InReplyToID : ID;
  Toot_Visibility : gostring;
  Toot_SpoilerText : gostring
}.

(** [Notification.Status] is a pointer, [nil] for a notification that
    carries no status. *)
Record Notification : Type := {
  Notification_Type : gostring;
  Notification_Account : Account;
  Notification_Status : option Status
}.

(** The events of the stream; [OtherEvent] stands for the event types the
    [switch] of [main] has no case for. *)
Inductive Event : Type :=
| NotificationEvent (n : Notification)
| UpdateEvent (s : Status)
| OtherEvent.

(** The tree [html.Parse] returns: [FirstChild] and [NextSibling] chain the
    children, here a list. *)
Inductive NodeType : Type :=
| ErrorNode | TextNode | DocumentNode | ElementNode | CommentNode
| DoctypeNode.

Inductive Node : Type :=
| mkNode (type : NodeType) (data : gostring) (children : list Node).

(** [genai.GenerateContentResponse]: the candidates, each with its
    [Content] (a pointer, possibly [nil]) and the parts of it; a part is
    what [%v] prints for it. *)
Record Candidate : Type := {
  Candidate_Content : option (list gostring)
}.

Definition GenerateContentResponse := list Candidate.

Record Config : Type := {
  LLM_Provider : gostring;
  LLM_OllamaModel : gostring
}.

(** A call that returns [(value, error)]. *)
Inductive result (A : Type) : Type :=
| Ok (a : A)
| Err (e : gostring).
Arguments Ok {A} a.
Arguments Err {A} e.

(** ** Collaborators and effects *)

(** What the handlers do to the outside, in the order they do it. *)
Inductive Call : Type :=
| CallGetStatus (id : ID)
| CallPostStatus (t : Toot)
| CallAccountFollow (id : ID)
| CallGenerateContent (prompt : gostring)
| CallOllamaRun (model prompt : gostring)
| CallLog (format : gostring) (arg : gostring)    (* log.Printf *)
| CallPrint (format : gostring) (arg : gostring). (* fmt.Printf *)

(** The collaborators: the Mastodon client, the two generation backends,
    the process environment and the two library functions whose tables are
    not part of the repository.  [World] is their state; every behaviour of
    a collaborator is a choice of these functions. *)
Record Collaborators (World : Type) : Type := {
  GetStatus : ID -> World -> result Status * World;
  PostStatus : Toot -> World -> result Status * World;
  AccountFollow : ID -> World -> result unit * World;
  GenerateContent : gostring -> World -> result GenerateContentResponse * World;
  ollama_run : gostring -> gostring -> World -> result gostring * World;
  os_Getenv : gostring -> World -> gostring;
  html_Parse : gostring -> result Node;
  strings_ToLower : gostring -> gostring
}.

(** How a computation ends: with a value, with a run-time panic (a [nil]
    pointer is dereferenced), or not within the steps it was given.  The
    first two come with the state the collaborators are left in and with
    the calls made, oldest first. *)
Inductive Outcome (World A : Type) : Type :=
| Done (a : A) (w : World) (calls : list Call)
| Panic (w : World) (calls : list Call)
| OutOfFuel.
Arguments Done {World A} a w calls.
Arguments Panic {World A} w calls.
Arguments OutOfFuel {World A}.

Definition M (World A : Type) : Type := World -> Outcome World A.

Definition ret {W A} (a : A) : M W A := fun w => Done a w [].

(** The calls of what came before are put in front. *)
Definition after {W A} (calls : list Call) (o : Outcome W A) : Outcome W A :=
  match o with
  | Done a w calls' => Done a w (calls ++ calls')
  | Panic w calls' => Panic w (calls ++ calls')
  | OutOfFuel => OutOfFuel
  end.

Definition bind {W A B} (m : M W A) (f : A -> M W B) : M W B :=
  fun w =>
    match m w with
    | Done a w' calls => after calls (f a w')
    | Panic w' calls => Panic w' calls
    | OutOfFuel => OutOfFuel
    end.

Notation "x <- m ;; k" := (bind m (fun x => k))
  (at level 61, m at next level, right associativity).
Notation "m ;;; k" := (bind m (fun _ => k))
  (at level 61, right associativity).

Definition panic {W A} : M W A := fun w => Panic w [].
Definition outOfFuel {W A} : M W A := fun _ => OutOfFuel.

(** A call to a collaborator: it is recorded and answered. *)
Definition call {W A} (c : Call) (f : W -> A * W) : M W A :=
  fun w => let (a, w') := f w in Done a w' [c].

Definition emit {W} (c : Call) : M W unit := fun w => Done tt w [c].

Definition log_Printf {W} (format arg : gostring) : M W unit :=
  emit (CallLog format arg).

Definition fmt_Printf {W} (format arg : gostring) : M W unit :=
  emit (CallPrint format arg).

Definition getenv {W} (E : Collaborators W) (name : gostring) : M W gostring :=
  fun w => Done (os_Getenv E name w) w [].

(** [*p] for a pointer that may be [nil]. *)
Definition deref {W A} (p : option A) : M W A :=
  match p with
  | Some a => ret a
  | None => panic
  end.

(** [==] on strings. *)
Fixpoint string_eqb (a b : gostring) : bool :=
  match a, b with
  | [], [] => true
  | x :: a', y :: b' => rune_eqb x y && string_eqb a' b'
  | _, _ => false
  end.

(** ** The handlers of [main.go] *)

Section Bot.

Variable World : Type.
Variable E : Collaborators World.
Variable config : Config.

(** The closure [extractText] of [extractTextFromHTML]. *)
Fixpoint extractText (n : Node) : gostring :=
  match n with
  | mkNode TextNode data _ => data
  | mkNode _ _ children =>
      (fix siblings (cs : list Node) : gostring :=
         match cs with
         | [] => []
         | c :: cs' => extractText c ++ siblings cs'
         end) children
  end.

Definition extractTextFromHTML (content : gostring) : M World gostring :=
  match html_Parse E content with
  | Err err =>
      log_Printf (str "Error parsing HTML: %v") err ;;;
      ret content
  | Ok doc => ret (extractText doc)
  end.

(** The loop of [fetchThread]; one unit of [fuel] pays for one turn. *)
Fixpoint fetchThread_loop (fuel : nat) (currentStatus : option Status)
    (thread : list gostring) : M World (list gostring) :=
  match currentStatus with
  | None => ret thread
  | Some cur =>
      match fuel with
      | O => outOfFuel
      | S fuel' =>
          content <- extractTextFromHTML (Status_Content cur) ;;
          let thread :=
            [fmt_Sprintf (str "%s: %s")
               [Account_Username (Status_Account cur); content]] ++ thread in
          match Status_InReplyToID cur with
          | None => ret thread
          | Some inReplyToID =>
              let parentID := fmt_Sprintf (str "%v") [inReplyToID] in
              r <- call (CallGetStatus parentID) (GetStatus E parentID) ;;
              match r with
              | Err err =>
                  log_Printf (str "Error fetching parent status: %v") err ;;;
                  ret thread
              | Ok parentStatus =>
                  fetchThread_loop fuel' (Some parentStatus) thread
              end
          end
      end
  end.

(** [fetchThread] returns the joined transcript and an [error]; [None] is
    the [nil] error. *)
Definition fetchThread (fuel : nat) (status : option Status)
    : M World (gostring * option gostring) :=
  thread <- fetchThread_loop fuel status [] ;;
  ret (strings_Join thread (nl ++ nl), None).

Definition getResponse (resp : GenerateContentResponse) : gostring :=
  fold_left
    (fun response cand =>
       match Candidate_Content cand with
       | Some parts =>
           fold_left
             (fun response part => response ++ fmt_Sprintf (str "%v") [part])
             parts response
       | None => response
       end)
    resp [].

Definition generateWithGemini (prompt : gostring) : M World (result gostring) :=
  r <- call (CallGenerateContent prompt) (GenerateContent E prompt) ;;
  match r with
  | Err err => ret (Err err)
  | Ok resp => ret (Ok (getResponse resp))
  end.

Definition generateWithOllama (prompt : gostring) : M World (result gostring) :=
  r <- call (CallOllamaRun (LLM_OllamaModel config) prompt)
         (ollama_run E (LLM_OllamaModel config) prompt) ;;
  match r with
  | Err err => ret (Err err)
  | Ok out => ret (Ok out)
  end.

Definition summarizeThread (thread : gostring) (isSinglePost : bool)
    : M World (result gostring) :=
  let prompt :=
    if negb isSinglePost then
      fmt_Sprintf
        (str "Write a TL;DR summary for this conversation. Reply with just the TL;DR and nothing else:"
           ++ nl ++ str "%s") [thread]
    else
      fmt_Sprintf
        (str "Write a TL;DR summary for this post. Refer to the Original poster as OP. Reply with just the TL;DR and nothing else:"
           ++ nl ++ str "%s") [thread] in
  if string_eqb (LLM_Provider config) (str "gemini") then
    generateWithGemini prompt
  else if string_eqb (LLM_Provider config) (str "ollama") then
    generateWithOllama prompt
  else
    ret (Err (fmt_Sprintf (str "unsupported LLM provider: %s")
                [LLM_Provider config])).

Definition handleFollowBack (userID : ID) : M World unit :=
  r <- call (CallAccountFollow userID) (AccountFollow E userID) ;;
  match r with
  | Err err => log_Printf (str "Error following back: %v") err
  | Ok _ => fmt_Printf (str "Followed back user: %s" ++ nl) userID
  end.

Definition handleMention (fuel : nat) (notification : Notification)
    : M World unit :=
  username <- getenv E (str "MASTODON_USERNAME") ;;
  ignored <-
    (if string_eqb (Account_Acct (Notification_Account notification)) username
     then ret true
     else
       status <- deref (Notification_Status notification) ;;
       ret (Account_Bot (Status_Account status))) ;;
  if ignored : bool then ret tt
  else
    status <- deref (Notification_Status notification) ;;
    fetched <- fetchThread fuel (Notification_Status notification) ;;
    let (thread, err) := fetched : gostring * option gostring in
    match err with
    | Some err =>
        log_Printf (str "Error fetching thread: %v") err
    | None =>
        r <- summarizeThread thread false ;;
        summary <-
          match r with
          | Err err =>
              log_Printf (str "Error summarizing thread: %v") err ;;;
              ret (str "uh oh, something went wrong. can't summarize this thread."
                     ++ nl ++ err)
          | Ok summary => ret summary
          end ;;
        let summary := cleanResponse summary in
        let response :=
          fmt_Sprintf (str "@%s TL;DR: %s")
            [Account_Acct (Notification_Account notification); summary] in
        let visibility := Status_Visibility status in
        let visibility :=
          if string_eqb visibility (str "public") then str "unlisted"
          else visibility in
        let contentWarning := Status_SpoilerText status in
        let contentWarning :=
          if negb (string_eqb contentWarning (str "")) &&
             negb (strings_HasPrefix contentWarning (str "re:"))
          then str "re: " ++ contentWarning
          else contentWarning in
        let toot := {| Toot_Status := response;
                       Toot_InReplyToID := Status_ID status;
                       Toot_Visibility := visibility;
                       Toot_SpoilerText := contentWarning |} in
        r <- call (CallPostStatus toot) (PostStatus E toot) ;;
        match r with
        | Err err => log_Printf (str "Error posting summary: %v") err
        | Ok _ => fmt_Printf (str "Posted summary: %s" ++ nl) response
        end
    end.

(** The condition of the [if] in [checkForLongPost]. *)
Definition isLongPost (content : gostring) : bool :=
  (200 <? countWords content)%Z &&
  negb (strings_Contains (strings_ToLower E content) (str "tl;dr")).

Definition checkForLongPost (status : Status) : M World unit :=
  content <- extractTextFromHTML (Status_Content status) ;;
  if isLongPost content then
    r <- summarizeThread content true ;;
    match r with
    | Err err => log_Printf (str "Error generating TL;DR: %v") err
    | Ok summary =>
        let summary := cleanResponse summary in
        let response :=
          fmt_Sprintf (str "@%s TL;DR: %s")
            [Account_Acct (Status_Account status); summary] in
        let contentWarning := Status_SpoilerText status in
        let contentWarning :=
          if negb (string_eqb contentWarning (str "")) &&
             negb (strings_HasPrefix contentWarning (str "re:"))
          then str "re: " ++ contentWarning
          else contentWarning in
        let toot := {| Toot_Status := response;
                       Toot_InReplyToID := Status_ID status;
                       Toot_Visibility := Status_Visibility status;
                       Toot_SpoilerText := contentWarning |} in
        r <- call (CallPostStatus toot) (PostStatus E toot) ;;
        match r with
        | Err err => log_Printf (str "Error posting TL;DR: %v") err
        | Ok _ =>
            fmt_Printf (str "Posted TL;DR for user %s" ++ nl)
              (Account_Acct (Status_Account status))
        end
    end
  else ret tt.

(** The body of the event loop of [main]. *)
Definition handleEvent (fuel : nat) (event : Event) : M World unit :=
  match event with
  | NotificationEvent n =>
      if string_eqb (Notification_Type n) (str "mention") then
        if Account_Bot (Notification_Account n) then ret tt
        else handleMention fuel n
      else if string_eqb (Notification_Type n) (str "follow") then
        if Account_Bot (Notification_Account n) then ret tt
        else handleFollowBack (Account_ID (Notification_Account n))
      else ret tt
  | UpdateEvent s =>
      if Account_Bot (Status_Account s) then ret tt
      else checkForLongPost s
  | OtherEvent => ret tt
  end.

(** [for event := range events]. *)
Fixpoint eventLoop (fuel : nat) (events : list Event) : M World unit :=
  match events with
  | [] => ret tt
  | event :: rest => handleEvent fuel event ;;; eventLoop fuel rest
  end.

End Bot.

(** ** Notions the specification uses *)

Module Spec.

(** Does the text begin with a non-whitespace rune? *)
Definition startsWord (s : gostring) : bool :=
  match s with
  | c :: _ => negb (unicode_IsSpace c)
  | [] => false
  end.

(** The maximal non-whitespace runs of a text, leftmost first: the words
    the Long-Post Detector is specified to count. *)
Fixpoint runs (s : gostring) : list gostring :=
  match s with
  | [] => []
  | c :: s' =>
      if unicode_IsSpace c then runs s'
      else if startsWord s' then
        match runs s' with
        | w :: ws => (c :: w) :: ws
        | [] => [[c]]
        end
      else [c] :: runs s'
  end.

(** The same notion as a relation: the text is whitespace, then a
    non-empty run without whitespace that is followed by whitespace or by
    the end of the text, and so on. *)
Inductive MaximalRuns : gostring -> list gostring -> Prop :=
| MR_end sp :
    Forall (fun c => unicode_IsSpace c = true) sp -> MaximalRuns sp []
| MR_word sp w rest ws :
    Forall (fun c => unicode_IsSpace c = true) sp ->
    w <> [] ->
    Forall (fun c => unicode_IsSpace c = false) w ->
    startsWord rest = false ->
    MaximalRuns rest ws ->
    MaximalRuns (sp ++ w ++ rest) (w :: ws).

(** Lower case of the ASCII letters.  No rune other than [T], [L], [D],
    [R] has [t], [l], [d], [r] as its lower case, so a text contains
    "tl;dr" in some mix of cases exactly when its [asciiLower] contains
    "tl;dr". *)
Definition asciiLowerRune (r : rune) : rune :=
  if ((65 <=? r) && (r <=? 90))%N then (r + 32)%N else r.

Definition asciiLower (s : gostring) : gostring := List.map asciiLowerRune s.

Definition startsWith (p : rune -> bool) (s : gostring) : bool :=
  match s with
  | c :: _ => p c
  | [] => false
  end.

Fixpoint dropWhile (p : rune -> bool) (s : gostring) : gostring :=
  match s with
  | c :: s' => if p c then dropWhile p s' else s
  | [] => []
  end.

(** The runes of the label, in either case. *)
Definition isT : rune -> bool := oneOf [chr "t"; chr "T"].
Definition isL : rune -> bool := oneOf [chr "l"; chr "L"].
Definition isSemi : rune -> bool := oneOf [chr ";"].
Definition isD : rune -> bool := oneOf [chr "d"; chr "D"].
Definition isR : rune -> bool := oneOf [chr "r"; chr "R"].

(** The text begins with "tl;dr" in some mix of cases. *)
Definition labelAt (s : gostring) : bool :=
  startsWith isT s &&
  (startsWith isL (skipn 1 s) &&
   (startsWith isSemi (skipn 2 s) &&
    (startsWith isD (skipn 3 s) && startsWith isR (skipn 4 s)))).

(** The text contains "tl;dr" in some mix of cases. *)
Fixpoint containsLabel (s : gostring) : bool :=
  labelAt s ||
  match s with
  | [] => false
  | _ :: s' => containsLabel s'
  end.

(** One of l ; d r: a rune that can continue a label begun further left. *)
Definition tailRune (r : rune) : bool := isL r || isSemi r || isD r || isR r.

Definition labelRune (r : rune) : bool := isT r || tailRune r.

(** The replies posted among some calls. *)
Fixpoint posted (calls : list Call) : list Toot :=
  match calls with
  | [] => []
  | CallPostStatus t :: rest => t :: posted rest
  | _ :: rest => posted rest
  end.

End Spec.
Import Spec.

(** ** Auxiliary notions for the proofs about the two patterns *)

Module Aux.

(** The length of the longest prefix whose runes all satisfy [p]. *)
Fixpoint span (p : rune -> bool) (s : gostring) : nat :=
  match s with
  | c :: s' => if p c then S (span p s') else 0
  | [] => 0
  end.

(** The continuation that ends a match. *)
Definition final : cont := fun _ _ n => Some n.

(** [tl;dr[:\-\s]*], the part of [tldrRegex] behind the optional group. *)
Definition labelBody : regex :=
  Cat (fold "t" "T") (Cat (fold "l" "L") (Cat (lit ";")
  (Cat (fold "d" "D") (Cat (fold "r" "R") (Star labelTail))))).

(** Where [(?m)^] matches. *)
Definition lineStart (prev : option rune) : bool :=
  match prev with
  | None => true
  | Some c => rune_eqb c newline
  end.

(** The text does not begin with whitespace. *)
Definition startsClean (s : gostring) : Prop :=
  match s with
  | c :: _ => unicode_IsSpace c = false
  | [] => True
  end.

End Aux.
Import Aux.

(** ** Names for what the handlers compute and do *)

(** The calls a run has made. *)
Definition callsOf {W A} (o : Outcome W A) : list Call :=
  match o with
  | Done _ _ calls => calls
  | Panic _ calls => calls
  | OutOfFuel => []
  end.

(** The statuses fetched among some calls. *)
Fixpoint fetched (calls : list Call) : list ID :=
  match calls with
  | [] => []
  | CallGetStatus id :: rest => id :: fetched rest
  | _ :: rest => fetched rest
  end.

Section Readings.
Variable World : Type.
Variable E : Collaborators World.

(** What [extractTextFromHTML] returns, and what it logs. *)
Definition plainText (content : gostring) : gostring :=
  match html_Parse E content with
  | Ok doc => extractText doc
  | Err _ => content
  end.

Definition parseLog (content : gostring) : list Call :=
  match html_Parse E content with
  | Ok _ => []
  | Err err => [CallLog (str "Error parsing HTML: %v") err]
  end.

(** The transcript line of a status. *)
Definition line (st : Status) : gostring :=
  fmt_Sprintf (str "%s: %s")
    [Account_Username (Status_Account st); plainText (Status_Content st)].

(** [mastodon.ID(fmt.Sprintf("%v", currentStatus.InReplyToID))] *)
Definition parentID (v : gostring) : ID := fmt_Sprintf (str "%v") [v].

(** [Resolves w st chain top w']: fetching parent after parent from [st]
    in world [w] succeeds along [chain] (leaf first), up to [top], and
    leaves the collaborators in [w']. *)
Inductive Resolves : World -> Status -> list Status -> Status -> World -> Prop :=
| Resolves_here w st : Resolves w st [st] st w
| Resolves_parent w st v p w1 chain top w2 :
    Status_InReplyToID st = Some v ->
    GetStatus E (parentID v) w = (Ok p, w1) ->
    Resolves w1 p chain top w2 ->
    Resolves w st (st :: chain) top w2.

(** The fetch of the parent of [st] fails with [err]. *)
Definition FetchFails (w : World) (st : Status) (err : gostring) : Prop :=
  exists v w', Status_InReplyToID st = Some v /\
               GetStatus E (parentID v) w = (Err err, w').

End Readings.

(** The calls [fetchThread] can make. *)
Definition fetchCall (c : Call) : Prop :=
  match c with
  | CallGetStatus _ => True
  | CallLog format _ =>
      format = str "Error parsing HTML: %v" \/
      format = str "Error fetching parent status: %v"
  | _ => False
  end.

(** The fixed text of [handleMention] for a failed generation. *)
Definition apology : gostring :=
  str "uh oh, something went wrong. can't summarize this thread." ++ nl.

(** The calls [summarizeThread] can make. *)
Definition generationCall (c : Call) : Prop :=
  match c with
  | CallGenerateContent _ | CallOllamaRun _ _ => True
  | _ => False
  end.

(** The visibility and the content warning [handleMention] computes. *)
Definition replyVisibility (visibility : gostring) : gostring :=
  if string_eqb visibility (str "public") then str "unlisted" else visibility.

Definition replyContentWarning (contentWarning : gostring) : gostring :=
  if negb (string_eqb contentWarning (str "")) &&
     negb (strings_HasPrefix contentWarning (str "re:"))
  then str "re: " ++ contentWarning
  else contentWarning.

(** The text [handleMention] sanitizes. *)
Definition summaryOf (r : result gostring) : gostring :=
  match r with
  | Ok summary => summary
  | Err err => apology ++ err
  end.

(** The [mastodon.Toot] each handler composes. *)
Definition mentionToot (n : Notification) (st : Status) (summary : gostring)
    : Toot :=
  {| Toot_Status :=
       fmt_Sprintf (str "@%s TL;DR: %s")
         [Account_Acct (Notification_Account n); cleanResponse summary];
     Toot_InReplyToID := Status_ID st;
     Toot_Visibility := replyVisibility (Status_Visibility st);
     Toot_SpoilerText := replyContentWarning (Status_SpoilerText st) |}.

Definition longPostToot (st : Status) (summary : gostring) : Toot :=
  {| Toot_Status :=
       fmt_Sprintf (str "@%s TL;DR: %s")
         [Account_Acct (Status_Account st); cleanResponse summary];
     Toot_InReplyToID := Status_ID st;
     Toot_Visibility := Status_Visibility st;
     Toot_SpoilerText := replyContentWarning (Status_SpoilerText st) |}.

(** The log lines around generation and posting. *)
Definition summaryLog (r : result gostring) : list Call :=
  match r with
  | Ok _ => []
  | Err err => [CallLog (str "Error summarizing thread: %v") err]
  end.

Definition postLog (format : gostring) (arg : gostring) (failure : gostring)
    (r : result Status) : Call :=
  match r with
  | Ok _ => CallPrint format arg
  | Err err => CallLog failure err
  end.

(** The content-warning rule as the specification words it: the prefix
    tested is "re: ", with the space. *)
Definition claimedContentWarning (contentWarning : gostring) : gostring :=
  match contentWarning with
  | [] => []
  | _ =>
      if strings_HasPrefix contentWarning (str "re: ") then contentWarning
      else str "re: " ++ contentWarning
  end.

(** An error text the sanitizer leaves as it is behind the apology: no
    "tl;dr" in any case, no line that begins with [#], no two spaces
    behind a full stop or a comma, and a last rune that is not
    whitespace. *)
Definition plainError (err : gostring) : bool :=
  negb (strings_Contains (asciiLower err) (str "tl;dr")) &&
  negb (strings_HasPrefix err (str "#")) &&
  negb (strings_Contains err (nl ++ str "#")) &&
  negb (strings_Contains err (str ".  ")) &&
  negb (strings_Contains err (str ",  ")) &&
  startsWord (rev err).

(** ** Further names for calls, prompts and lines *)

(** The accounts followed among some calls. *)
Fixpoint followed (calls : list Call) : list ID :=
  match calls with
  | [] => []
  | CallAccountFollow id :: rest => id :: followed rest
  | _ :: rest => followed rest
  end.

(** The requests made to a generation backend among some calls. *)
Fixpoint generations (calls : list Call) : list Call :=
  match calls with
  | [] => []
  | CallGenerateContent prompt :: rest =>
      CallGenerateContent prompt :: generations rest
  | CallOllamaRun model prompt :: rest =>
      CallOllamaRun model prompt :: generations rest
  | _ :: rest => generations rest
  end.

(** The instruction in front of the transcript, for a thread and for a
    single post. *)
Definition threadInstruction : gostring :=
  str "Write a TL;DR summary for this conversation. Reply with just the TL;DR and nothing else:".

Definition postInstruction : gostring :=
  str "Write a TL;DR summary for this post. Refer to the Original poster as OP. Reply with just the TL;DR and nothing else:".

(** The parts of a candidate; none when its [Content] is [nil]. *)
Definition partsOf (cand : Candidate) : list gostring :=
  match Candidate_Content cand with
  | Some parts => parts
  | None => []
  end.

(** The data of the text nodes of a tree, in document order; what hangs
    below a text node is not looked at. *)
Fixpoint textNodes (n : Node) : list gostring :=
  match n with
  | mkNode TextNode data _ => [data]
  | mkNode _ _ children =>
      (fix siblings (cs : list Node) : list gostring :=
         match cs with
         | [] => []
         | c :: cs' => textNodes c ++ siblings cs'
         end) children
  end.

Definition isHash : rune -> bool := oneOf [chr "#"].

Definition isNewline (r : rune) : bool := rune_eqb r newline.

(** The length of the match of [headerRegex] at a line start where the
    text begins with [#]: the [#]s, the whitespace behind them (newlines
    too), the rest of the line that whitespace ends in, and its newline. *)
Definition headerLength (s : gostring) : nat :=
  let s1 := dropWhile isHash s in
  let s2 := dropWhile perlSpace s1 in
  let s3 := dropWhile anyButNewline s2 in
  span isHash s + (span perlSpace s1 + (span anyButNewline s2 +
    (if startsWith isNewline s3 then 1 else 0))).

(** No line of the text begins with [#]; [atLineStart] tells whether the
    text itself begins a line. *)
Fixpoint lineClean (atLineStart : bool) (s : gostring) : bool :=
  match s with
  | [] => true
  | c :: s' => negb (atLineStart && isHash c) && lineClean (isNewline c) s'
  end.

(** Where the scan is once [k] more runes of [s] are passed over: at the
    end of the text, or behind a newline. *)
Fixpoint resumesAtLine (prev : option rune) (k : nat) (s : gostring) : Prop :=
  match k, s with
  | O, [] => True
  | O, _ :: _ => lineStart prev = true
  | S k', c :: s' => resumesAtLine (Some c) k' s'
  | S _, [] => True
  end.

(** [a] and [c] follow one another in "tl;dr", in some mix of cases. *)
Definition joined (last : option rune) (c : rune) : bool :=
  match last with
  | Some a =>
      (isT a && isL c) || (isL a && isSemi c) || (isSemi a && isD c) ||
      (isD a && isR c)
  | None => false
  end.

(** No removed stretch joins a label: wherever labels are cut out of the
    text (each with the whitespace rune directly before it and the colons,
    hyphens and whitespace directly behind it; several in a row count as
    one stretch), the rune kept before the stretch and the rune kept behind
    it do not follow one another in "tl;dr".  [last] is the rune kept last,
    [behind] tells whether something has been cut out since, and [k]
    counts the runes of the current stretch still ahead. *)
Fixpoint joinFree (last : option rune) (behind : bool) (k : nat)
    (s : gostring) : bool :=
  match s with
  | [] => true
  | c :: s' =>
      match k with
      | S k' => joinFree last true k' s'
      | O =>
          if labelAt s then
            joinFree last true (4 + span labelTail (skipn 5 s)) s'
          else if perlSpace c && labelAt s' then
            joinFree last true (5 + span labelTail (skipn 5 s')) s'
          else
            negb (behind && joined last c) && joinFree (Some c) false 0 s'
      end
  end.

(** ** A concrete setting, to run the handlers on *)

Module Demo.

(** The statuses the server knows and what the generation backend
    answers. *)
Record World : Type := {
  store : list Status;
  backend : result gostring
}.

Definition lookup (id : ID) (l : list Status) : result Status :=
  match find (fun st => string_eqb (Status_ID st) id) l with
  | Some st => Ok st
  | None => Err (str "404 Not Found")
  end.

(** The parser stand-in reads its input as one text node, which is what
    [html.Parse] makes of a text without markup. *)
Definition collaborators : Collaborators World := {|
  GetStatus := fun id w => (lookup id (store w), w);
  PostStatus := fun t w =>
    (Ok {| Status_ID := str "900";
           Status_InReplyToID := Some (Toot_InReplyToID t);
           Status_Account := {| Account_ID := str "1";
                                Account_Username := str "tldr";
                                Account_Acct := str "tldr";
                                Account_Bot := true |};
           Status_Content := Toot_Status t;
           Status_Visibility := Toot_Visibility t;
           Status_SpoilerText := Toot_SpoilerText t |}, w);
  AccountFollow := fun _ w => (Ok tt, w);
  GenerateContent := fun _ w =>
    (match backend w with
     | Ok text => Ok [ {| Candidate_Content := Some [text] |} ]
     | Err e => Err e
     end, w);
  ollama_run := fun _ _ w => (backend w, w);
  os_Getenv := fun _ _ => str "tldr";
  html_Parse := fun content =>
    Ok (mkNode DocumentNode [] [mkNode TextNode content []]);
  strings_ToLower := asciiLower
|}.

Definition gemini : Config :=
  {| LLM_Provider := str "gemini"; LLM_OllamaModel := str "llava-phi3" |}.

Definition alice : Account :=
  {| Account_ID := str "7"; Account_Username := str "alice";
     Account_Acct := str "alice@example.org"; Account_Bot := false |}.

Definition bob : Account :=
  {| Account_ID := str "8"; Account_Username := str "bob";
     Account_Acct := str "bob"; Account_Bot := false |}.

Definition feed : Account :=
  {| Account_ID := str "9"; Account_Username := str "feed";
     Account_Acct := str "feed"; Account_Bot := true |}.

(** A thread: [stA] is the root, [stB] answers it, [stC] answers [stB]. *)
Definition stA : Status :=
  {| Status_ID := str "100"; Status_InReplyToID := None;
     Status_Account := alice; Status_Content := str "first post";
     Status_Visibility := str "public"; Status_SpoilerText := str "" |}.

Definition stB : Status :=
  {| Status_ID := str "101"; Status_InReplyToID := Some (str "100");
     Status_Account := bob; Status_Content := str "an answer";
     Status_Visibility := str "public"; Status_SpoilerText := str "" |}.

Definition stC : Status :=
  {| Status_ID := str "102"; Status_InReplyToID := Some (str "101");
     Status_Account := alice; Status_Content := str "@tldr please";
     Status_Visibility := str "public"; Status_SpoilerText := str "spoilers" |}.

Definition working : World :=
  {| store := [stA; stB; stC]; backend := Ok (str "They talked.") |}.

(** The root of the thread has been deleted. *)
Definition rootGone : World :=
  {| store := [stB; stC]; backend := Ok (str "They talked.") |}.

Definition backendDown : World :=
  {| store := [stA; stB; stC]; backend := Err (str "exit status 1") |}.

Definition mention (by_ : Account) (st : Status) : Notification :=
  {| Notification_Type := str "mention"; Notification_Account := by_;
     Notification_Status := Some st |}.

(** A post of [n] words. *)
Definition words (n : nat) : gostring := List.concat (repeat (str "word ") n).

Definition longPost (n : nat) (visibility spoiler : gostring) : Status :=
  {| Status_ID := str "200"; Status_InReplyToID := None;
     Status_Account := alice; Status_Content := words n;
     Status_Visibility := visibility; Status_SpoilerText := spoiler |}.

(** The backend fails with a message of two sentences. *)
Definition quotaExceeded : World :=
  {| store := [stA; stB; stC];
     backend := Err (str "quota exceeded.  Retry later") |}.

(** A post whose content warning begins with "re:" and no space. *)
Definition stD : Status :=
  {| Status_ID := str "103"; Status_InReplyToID := None;
     Status_Account := bob; Status_Content := str "@tldr and this?";
     Status_Visibility := str "unlisted"; Status_SpoilerText := str "re:cap" |}.

(** A post by an automated account in which [bob] mentions the bot. *)
Definition stF : Status :=
  {| Status_ID := str "300"; Status_InReplyToID := None;
     Status_Account := feed; Status_Content := str "@tldr";
     Status_Visibility := str "public"; Status_SpoilerText := str "" |}.

(** [by_] has begun to follow the bot. *)
Definition follow (by_ : Account) : Notification :=
  {| Notification_Type := str "follow"; Notification_Account := by_;
     Notification_Status := None |}.

(** A mention notification that carries no status. *)
Definition bare (by_ : Account) : Notification :=
  {| Notification_Type := str "mention"; Notification_Account := by_;
     Notification_Status := None |}.

(** A status that names itself as its parent. *)
Definition stLoop : Status :=
  {| Status_ID := str "400"; Status_InReplyToID := Some (str "400");
     Status_Account := bob; Status_Content := str "round and round";
     Status_Visibility := str "public"; Status_SpoilerText := str "" |}.

Definition looping : World :=
  {| store := [stLoop]; backend := Ok (str "They talked.") |}.

(** The backend answers with the label and nothing else. *)
Definition terse : World :=
  {| store := [stA; stB; stC]; backend := Ok (str "TL;DR:") |}.

Definition unsupported : Config :=
  {| LLM_Provider := str "llama"; LLM_OllamaModel := str "llava-phi3" |}.

End Demo.

(** * Properties *)

(** ** Counting words *)

Lemma wrap64_small z : (- 2 ^ 63 <= z < 2 ^ 63)%Z -> wrap64 z = z.
Proof.
  intros H. unfold wrap64.
  rewrite Z.mod_small; lia.
Qed.

Lemma runs_startsWord s : startsWord s = true -> runs s <> [].
Proof.
  destruct s as [|c s']; simpl; [discriminate|].
  intros H. apply negb_true_iff in H. rewrite H.
  destruct (startsWord s'); [destruct (runs s')|]; discriminate.
Qed.

(** The loop invariant: [count] plus the runs still ahead, the first of
    them not counted again when the loop is inside it. *)
Lemma countWords_loop_runs s : forall b c,
  (0 <= c)%Z -> (c + Z.of_nat (List.length s) < 2 ^ 63)%Z ->
  countWords_loop s b c =
  (c + Z.of_nat (List.length (runs s))
   - (if b && startsWord s then 1 else 0))%Z.
Proof.
  induction s as [|r rest IH]; intros b c Hc Hlen.
  - simpl. rewrite andb_false_r. lia.
  - cbn [countWords_loop runs startsWord List.length] in *.
    destruct (unicode_IsSpace r) eqn:Hr; cbn [negb].
    + rewrite IH by lia. rewrite andb_false_r. simpl. lia.
    + assert (Hnz : startsWord rest = true ->
                    (1 <= Z.of_nat (List.length (runs rest)))%Z).
      { intros Hs. apply runs_startsWord in Hs.
        destruct (runs rest); [congruence|simpl; lia]. }
      destruct b; cbn [negb andb].
      * rewrite IH by lia. cbn [andb].
        destruct (startsWord rest) eqn:Hs.
        -- specialize (Hnz eq_refl). destruct (runs rest); simpl in *; lia.
        -- cbn [List.length]. lia.
      * rewrite wrap64_small by lia. rewrite IH by lia. cbn [andb].
        destruct (startsWord rest) eqn:Hs.
        -- specialize (Hnz eq_refl). destruct (runs rest); simpl in *; lia.
        -- cbn [List.length]. lia.
Qed.

Lemma countWords_runs text :
  (Z.of_nat (List.length text) < 2 ^ 63)%Z ->
  countWords text = Z.of_nat (List.length (runs text)).
Proof.
  intros H. unfold countWords. rewrite countWords_loop_runs by lia.
  simpl. lia.
Qed.

Lemma MaximalRuns_space c s ws :
  unicode_IsSpace c = true -> MaximalRuns s ws -> MaximalRuns (c :: s) ws.
Proof.
  intros Hc H. inversion H; subst.
  - constructor. constructor; assumption.
  - change (c :: sp ++ w ++ rest) with ((c :: sp) ++ w ++ rest).
    constructor; auto.
Qed.

(** [runs] computes the decomposition the relation describes. *)
Lemma runs_maximal s : MaximalRuns s (runs s).
Proof.
  induction s as [|c s' IH]; cbn [runs].
  - constructor. constructor.
  - destruct (unicode_IsSpace c) eqn:Hc.
    + apply MaximalRuns_space; assumption.
    + destruct (startsWord s') eqn:Hs.
      * inversion IH as [sp Hsp Heq Hr | sp w rest ws Hsp Hw Hns Hrest Hmr Heq Hr].
        -- subst sp. destruct s' as [|d s'']; [discriminate|].
           inversion Hsp; subst. simpl in Hs. rewrite H1 in Hs. discriminate.
        -- destruct sp as [|d sp'].
           ++ simpl in Heq. subst s'.
              refine (MR_word (sp:=[]) (w:=c :: w) (rest:=rest) _ _ _ Hrest Hmr);
                [constructor | discriminate | constructor; assumption].
           ++ subst s'. inversion Hsp; subst. simpl in Hs.
              rewrite H1 in Hs. discriminate.
      * refine (MR_word (sp:=[]) (w:=[c]) (rest:=s') _ _ _ Hs IH);
          [constructor | discriminate | repeat constructor; assumption].
Qed.

Lemma runs_spaces sp s :
  Forall (fun c => unicode_IsSpace c = true) sp -> runs (sp ++ s) = runs s.
Proof.
  induction 1 as [|c sp Hc _ IH]; [reflexivity|].
  cbn [app runs]. rewrite Hc. exact IH.
Qed.

Lemma startsWord_app w rest :
  w <> [] -> Forall (fun c => unicode_IsSpace c = false) w ->
  startsWord (w ++ rest) = true.
Proof.
  intros Hw Hns. destruct w as [|c w]; [congruence|].
  inversion Hns; subst. simpl. rewrite H1. reflexivity.
Qed.

Lemma runs_word w rest :
  w <> [] -> Forall (fun c => unicode_IsSpace c = false) w ->
  startsWord rest = false ->
  runs (w ++ rest) = w :: runs rest.
Proof.
  intros Hw Hns Hrest. induction w as [|c w IH]; [congruence|].
  inversion Hns as [|? ? Hc Hns']; subst.
  cbn [app runs]. rewrite Hc.
  destruct w as [|d w].
  - cbn [app]. rewrite Hrest. reflexivity.
  - rewrite startsWord_app by (auto; discriminate).
    rewrite IH by (auto; discriminate). reflexivity.
Qed.

(** The decomposition is unique: [runs] is the only one. *)
Lemma MaximalRuns_unique s ws : MaximalRuns s ws -> ws = runs s.
Proof.
  induction 1 as [sp Hsp | sp w rest ws Hsp Hw Hns Hrest _ IH].
  - rewrite <- (app_nil_r sp). rewrite runs_spaces by assumption. reflexivity.
  - rewrite runs_spaces by assumption.
    rewrite runs_word by assumption. f_equal. exact IH.
Qed.

(** C5: the Long-Post Detector answers true exactly when the text has more
    than 200 maximal non-whitespace runs and its lower-cased form does not
    contain "tl;dr"; a text of exactly 200 words gives false.  (A Go string
    is shorter than 2^63, so the counter never wraps.) *)
Theorem isLongPost_iff_runs (World : Type) (E : Collaborators World)
    (content : gostring) :
  (Z.of_nat (List.length content) < 2 ^ 63)%Z ->
  (isLongPost E content = true <->
     200 < List.length (runs content) /\
     strings_Contains (strings_ToLower E content) (str "tl;dr") = false) /\
  (List.length (runs content) = 200 -> isLongPost E content = false).
Proof.
  intros Hlen. unfold isLongPost. rewrite (countWords_runs _ Hlen).
  split.
  - rewrite andb_true_iff, negb_true_iff, Z.ltb_lt. split.
    + intros [H1 H2]. split; [lia|exact H2].
    + intros [H1 H2]. split; [lia|exact H2].
  - intros ->. reflexivity.
Qed.

Lemma isLongPost_iff_runs_witness :
  (Z.of_nat (List.length (Demo.words 201)) < 2 ^ 63)%Z /\
  ((isLongPost Demo.collaborators (Demo.words 201) = true <->
     200 < List.length (runs (Demo.words 201)) /\
     strings_Contains (strings_ToLower Demo.collaborators (Demo.words 201))
       (str "tl;dr") = false) /\
   (List.length (runs (Demo.words 201)) = 200 ->
    isLongPost Demo.collaborators (Demo.words 201) = false)).
Proof.
  split; [vm_compute; reflexivity|].
  apply (@isLongPost_iff_runs _ Demo.collaborators (Demo.words 201)).
  vm_compute. reflexivity.
Defined.

(** ** The response sanitizer *)

Lemma star_final p : forall s prev n,
  star p prev s n final = Some (n + span p s).
Proof.
  induction s as [|c s' IH]; intros prev n; simpl.
  - unfold final. f_equal. lia.
  - destruct (p c).
    + rewrite IH. f_equal. lia.
    + unfold final. f_equal. lia.
Qed.

Lemma run_labelBody prev s n :
  run labelBody prev s n final =
  if labelAt s then Some (n + 5 + span labelTail (skipn 5 s)) else None.
Proof.
  unfold labelBody, fold, lit.
  unfold labelAt.
  destruct s as [|a [|b [|c [|d [|e s']]]]]; cbn [run startsWith skipn];
    fold isT isL isSemi isD isR;
    repeat match goal with
           | |- context [if ?p ?x then _ else _] =>
               is_var x; destruct (p x); cbn [andb]; try reflexivity
           end; try reflexivity.
  rewrite star_final. cbn [skipn]. f_equal. lia.
Qed.

Lemma perlSpace_not_T c : perlSpace c = true -> isT c = false.
Proof.
  unfold perlSpace, isT, oneOf, existsb, rune_eqb, chr. simpl N_of_ascii.
  repeat match goal with
         | |- context [N.eqb ?a ?b] => destruct (N.eqb_spec a b); subst
         end; simpl; try reflexivity; try discriminate; intros; lia.
Qed.

Lemma matchAt_tldrRegex prev s :
  matchAt tldrRegex prev s =
  if labelAt s then Some (5 + span labelTail (skipn 5 s))
  else
    match s with
    | c :: s' =>
        if perlSpace c && labelAt s'
        then Some (6 + span labelTail (skipn 5 s'))
        else None
    | [] => None
    end.
Proof.
  unfold matchAt.
  change tldrRegex with (Cat (Quest (Alt BeginText (Class perlSpace))) labelBody).
  cbn [run]. fold final.
  destruct prev as [p|].
  - destruct s as [|c s'].
    + rewrite run_labelBody. reflexivity.
    + destruct (perlSpace c) eqn:Hc; cbn [andb].
      * rewrite !run_labelBody.
        destruct (labelAt s') eqn:Hs'.
        -- destruct (labelAt (c :: s')) eqn:Hcs.
           ++ exfalso. unfold labelAt in Hcs. cbn [startsWith] in Hcs.
              rewrite (perlSpace_not_T _ Hc) in Hcs. discriminate.
           ++ f_equal.
        -- reflexivity.
      * rewrite run_labelBody. reflexivity.
  - rewrite run_labelBody.
    destruct (labelAt s) eqn:Hs; [reflexivity|].
    destruct s as [|c s']; [reflexivity|].
    destruct (perlSpace c); cbn [andb]; rewrite ?run_labelBody; try rewrite Hs; try reflexivity.
    destruct (labelAt s'); reflexivity.
Qed.

Lemma matchAt_headerRegex_inv prev s n :
  matchAt headerRegex prev s = Some n ->
  lineStart prev = true /\ exists s', s = chr "#" :: s'.
Proof.
  unfold matchAt, headerRegex. cbn [run].
  assert (H : forall k,
    match s with
    | [] => None
    | c :: s' => if oneOf [chr "#"] c then star (oneOf [chr "#"]) (Some c) s' 1 k else None
    end = Some n -> exists s', s = chr "#" :: s').
  { intros k. destruct s as [|c s']; [discriminate|].
    destruct (oneOf [chr "#"] c) eqn:Hc; [|discriminate].
    intros _. exists s'. f_equal.
    unfold oneOf, existsb, rune_eqb in Hc. rewrite orb_false_r in Hc.
    apply N.eqb_eq in Hc. exact Hc. }
  destruct prev as [c|]; cbn [lineStart].
  - destruct (rune_eqb c newline); [|discriminate].
    intros Hm. split; [reflexivity|]. eapply H; eassumption.
  - intros Hm. split; [reflexivity|]. eapply H; eassumption.
Qed.

Lemma containsLabel_cons c s :
  containsLabel (c :: s) = false -> containsLabel s = false.
Proof. cbn [containsLabel]. intros H. apply orb_false_iff in H. tauto. Qed.

Lemma containsLabel_labelAt s : containsLabel s = false -> labelAt s = false.
Proof. destruct s; cbn [containsLabel]; intros H; apply orb_false_iff in H; tauto. Qed.

(** Stage 1 leaves a text without label alone. *)
Lemma removeLabels_fixed s : forall prev,
  containsLabel s = false ->
  rewriteAll (matchAt tldrRegex) [] prev 0 s = s.
Proof.
  induction s as [|c s' IH]; intros prev H.
  - cbn [rewriteAll]. rewrite matchAt_tldrRegex. reflexivity.
  - cbn [rewriteAll]. rewrite matchAt_tldrRegex.
    rewrite (containsLabel_labelAt _ H).
    apply containsLabel_cons in H.
    rewrite (containsLabel_labelAt _ H), andb_false_r.
    f_equal. apply IH. exact H.
Qed.

Lemma contains_cons c s sub :
  strings_Contains (c :: s) sub = false ->
  strings_HasPrefix (c :: s) sub = false /\ strings_Contains s sub = false.
Proof. cbn [strings_Contains]. intros H. apply orb_false_iff in H. exact H. Qed.

(** Stage 2 leaves a text alone in which no line begins with [#]. *)
Lemma removeHeaders_fixed s : forall prev,
  (lineStart prev = true -> strings_HasPrefix s (str "#") = false) ->
  strings_Contains s (nl ++ str "#") = false ->
  rewriteAll (matchAt headerRegex) [] prev 0 s = s.
Proof.
  induction s as [|c s' IH]; intros prev Hp Hc.
  - cbn [rewriteAll]. destruct (matchAt headerRegex prev []) as [n|] eqn:Hm.
    + apply matchAt_headerRegex_inv in Hm. destruct Hm as [_ [s' Hs']]. discriminate.
    + reflexivity.
  - cbn [rewriteAll]. apply contains_cons in Hc. destruct Hc as [Hpre Hc].
    assert (Hrec : rewriteAll (matchAt headerRegex) [] (Some c) 0 s' = s').
    { apply IH; [|exact Hc]. cbn [lineStart]. intros Hnl.
      revert Hpre. unfold nl. cbn. rewrite Hnl. cbn [andb].
      destruct s' as [|d s'']; [reflexivity|]. intros H; exact H. }
    destruct (matchAt headerRegex prev (c :: s')) as [n|] eqn:Hm.
    + apply matchAt_headerRegex_inv in Hm. destruct Hm as [Hls [s'' Hs'']].
      specialize (Hp Hls). injection Hs'' as -> _.
      cbn in Hp. discriminate Hp.
    + rewrite Hrec. reflexivity.
Qed.

(** [strings.ReplaceAll] leaves a text alone that does not contain [old]. *)
Lemma strings_ReplaceAll_fixed s old new :
  strings_Contains s old = false -> strings_ReplaceAll s old new = s.
Proof.
  unfold strings_ReplaceAll. generalize (@None rune).
  induction s as [|c s' IH]; intros prev H.
  - cbn [rewriteAll]. cbn [strings_Contains] in H. rewrite orb_false_r in H.
    rewrite H. reflexivity.
  - apply contains_cons in H. destruct H as [Hp Hc].
    cbn [rewriteAll]. rewrite Hp. f_equal. apply IH. exact Hc.
Qed.

Lemma trimLeft_clean s : startsClean (trimLeft s).
Proof.
  induction s as [|c s' IH]; simpl; [exact I|].
  destruct (unicode_IsSpace c) eqn:Hc; [exact IH|simpl; exact Hc].
Qed.

Lemma trimLeft_fixed s : startsClean s -> trimLeft s = s.
Proof. destruct s as [|c s']; simpl; [reflexivity|]. intros ->. reflexivity. Qed.

Lemma trimLeft_app_last l c :
  unicode_IsSpace c = false ->
  exists l', trimLeft (l ++ [c]) = l' ++ [c].
Proof.
  intros Hc. induction l as [|d l IH]; simpl.
  - rewrite Hc. exists []. reflexivity.
  - destruct (unicode_IsSpace d).
    + exact IH.
    + exists (d :: l). reflexivity.
Qed.

Lemma strings_TrimSpace_clean s :
  startsClean (strings_TrimSpace s) /\ startsClean (rev (strings_TrimSpace s)).
Proof.
  unfold strings_TrimSpace. rewrite rev_involutive.
  split; [|apply trimLeft_clean].
  pose proof (trimLeft_clean s) as H.
  destruct (trimLeft s) as [|c t]; [exact I|].
  simpl in H. cbn [rev].
  destruct (trimLeft_app_last (rev t) _ H) as [l' ->].
  rewrite rev_app_distr. simpl. exact H.
Qed.

Lemma strings_TrimSpace_fixed s :
  startsClean s -> startsClean (rev s) -> strings_TrimSpace s = s.
Proof.
  intros H1 H2. unfold strings_TrimSpace.
  rewrite (trimLeft_fixed _ H1), (trimLeft_fixed _ H2). apply rev_involutive.
Qed.

Lemma strings_TrimSpace_idem s :
  strings_TrimSpace (strings_TrimSpace s) = strings_TrimSpace s.
Proof.
  destruct (strings_TrimSpace_clean s). apply strings_TrimSpace_fixed; assumption.
Qed.

Lemma skipn_span p s : skipn (span p s) s = dropWhile p s.
Proof.
  induction s as [|c s' IH]; simpl; [reflexivity|].
  destruct (p c); simpl; [exact IH|reflexivity].
Qed.

Lemma skipn_add {A} (a b : nat) (l : list A) :
  skipn (a + b) l = skipn b (skipn a l).
Proof. rewrite skipn_skipn. f_equal. lia. Qed.

Local Notation "'removeLabels'" := (rewriteAll (matchAt tldrRegex) []).

Lemma labelAt_inv s :
  labelAt s = true ->
  exists a b c d e s', s = a :: b :: c :: d :: e :: s' /\
    isT a = true /\ isL b = true /\ isSemi c = true /\ isD d = true /\
    isR e = true.
Proof.
  unfold labelAt.
  destruct s as [|a [|b [|c [|d [|e s']]]]]; cbn [startsWith skipn];
    rewrite ?andb_false_r; try discriminate.
  intros H.
  repeat (apply andb_true_iff in H; destruct H as [? H]).
  exists a, b, c, d, e, s'. auto 10.
Qed.

Lemma tailRune_L r : isL r = true -> tailRune r = true.
Proof. unfold tailRune. intros ->. reflexivity. Qed.
Lemma tailRune_Semi r : isSemi r = true -> tailRune r = true.
Proof. unfold tailRune. intros ->. rewrite orb_true_r. reflexivity. Qed.
Lemma tailRune_D r : isD r = true -> tailRune r = true.
Proof. unfold tailRune. intros ->. rewrite !orb_true_r. reflexivity. Qed.
Lemma tailRune_R r : isR r = true -> tailRune r = true.
Proof. unfold tailRune. intros ->. rewrite !orb_true_r. reflexivity. Qed.

Lemma labelRune_T r : isT r = true -> labelRune r = true.
Proof. unfold labelRune. intros ->. reflexivity. Qed.
Lemma labelRune_tail r : tailRune r = true -> labelRune r = true.
Proof. unfold labelRune. intros ->. apply orb_true_r. Qed.

Section ScanKeeps.

Variable matcher : option rune -> gostring -> option nat.
Variable repl : gostring.

Hypothesis repl_plain : forall X,
  containsLabel X = false -> containsLabel (repl ++ X) = false.

Hypothesis copy_next : forall c s x X,
  labelRune c = true ->
  rewriteAll matcher repl (Some c) 0 s = x :: X ->
  labelRune x = true ->
  exists s', s = x :: s' /\ X = rewriteAll matcher repl (Some x) 0 s'.

Lemma copy_keeps c s :
  containsLabel (c :: s) = false ->
  containsLabel (rewriteAll matcher repl (Some c) 0 s) = false ->
  containsLabel (c :: rewriteAll matcher repl (Some c) 0 s) = false.
Proof.
  intros Hin Hrec. cbn [containsLabel]. rewrite Hrec, orb_false_r.
  destruct (labelAt (c :: rewriteAll matcher repl (Some c) 0 s)) eqn:Hout;
    [|reflexivity].
  exfalso.
  apply labelAt_inv in Hout.
  destruct Hout as (a & b & c0 & d & e & X & Heq & Ha & Hb & Hc & Hd & He).
  injection Heq as <- Heq.
  destruct (@copy_next _ _ _ _ (labelRune_T _ Ha) Heq
              (labelRune_tail _ (tailRune_L _ Hb))) as [s1 [-> Heq1]].
  symmetry in Heq1.
  destruct (@copy_next _ _ _ _ (labelRune_tail _ (tailRune_L _ Hb)) Heq1
              (labelRune_tail _ (tailRune_Semi _ Hc))) as [s2 [-> Heq2]].
  symmetry in Heq2.
  destruct (@copy_next _ _ _ _ (labelRune_tail _ (tailRune_Semi _ Hc)) Heq2
              (labelRune_tail _ (tailRune_D _ Hd))) as [s3 [-> Heq3]].
  symmetry in Heq3.
  destruct (@copy_next _ _ _ _ (labelRune_tail _ (tailRune_D _ Hd)) Heq3
              (labelRune_tail _ (tailRune_R _ He))) as [s4 [-> Heq4]].
  apply containsLabel_labelAt in Hin.
  unfold labelAt in Hin. cbn [startsWith skipn] in Hin.
  rewrite Ha, Hb, Hc, Hd, He in Hin. discriminate.
Qed.

(** A scan that neither writes a rune of the label nor joins two of them
    creates no label. *)
Lemma scan_keeps s : forall prev k,
  containsLabel s = false ->
  containsLabel (rewriteAll matcher repl prev k s) = false.
Proof.
  induction s as [|c s' IH]; intros prev k Hin.
  - destruct k; cbn [rewriteAll]; [|reflexivity].
    destruct (matcher prev []) as [[|n]|]; try reflexivity;
      apply repl_plain; reflexivity.
  - pose proof (containsLabel_cons _ _ Hin) as Hin'.
    destruct k as [|k]; cbn [rewriteAll]; [|apply IH; exact Hin'].
    destruct (matcher prev (c :: s')) as [[|n]|].
    + apply repl_plain. apply copy_keeps; [exact Hin|apply IH; exact Hin'].
    + apply repl_plain. apply IH; exact Hin'.
    + apply copy_keeps; [exact Hin|apply IH; exact Hin'].
Qed.

End ScanKeeps.

Lemma labelRune_not_newline c : labelRune c = true -> rune_eqb c newline = false.
Proof.
  unfold labelRune, tailRune, isT, isL, isSemi, isD, isR, oneOf, existsb,
    rune_eqb, chr, newline. simpl.
  repeat match goal with
         | |- context [N.eqb ?a ?b] => destruct (N.eqb_spec a b); subst
         end; simpl; intros; try reflexivity; try discriminate.
Qed.

Lemma removeHeaders_keeps s prev k :
  containsLabel s = false ->
  containsLabel (rewriteAll (matchAt headerRegex) [] prev k s) = false.
Proof.
  apply scan_keeps.
  - intros X H. exact H.
  - intros c t x X Hc Hout _.
    destruct t as [|d t']; cbn [rewriteAll] in Hout.
    + destruct (matchAt headerRegex (Some c) []) as [[|n]|]; discriminate.
    + destruct (matchAt headerRegex (Some c) (d :: t')) as [n|] eqn:Hm.
      * apply matchAt_headerRegex_inv in Hm. destruct Hm as [Hls _].
        cbn [lineStart] in Hls.
        rewrite (labelRune_not_newline _ Hc) in Hls. discriminate.
      * injection Hout as -> <-. exists t'. split; reflexivity.
Qed.

Lemma strings_ReplaceAll_keeps s old new :
  old <> [] ->
  (forall X, containsLabel X = false -> containsLabel (new ++ X) = false) ->
  startsWith labelRune new = false -> new <> [] ->
  containsLabel s = false ->
  containsLabel (strings_ReplaceAll s old new) = false.
Proof.
  intros Hold Hnew Hhead Hne. unfold strings_ReplaceAll.
  apply scan_keeps.
  - exact Hnew.
  - intros c t x X Hc Hout Hx.
    assert (Hlen : exists n, List.length old = S n).
    { destruct old; [congruence|]. simpl. eauto. }
    destruct Hlen as [n Hn].
    destruct t as [|d t']; cbn [rewriteAll] in Hout.
    + destruct (strings_HasPrefix [] old).
      * rewrite Hn in Hout. destruct new as [|y new']; [congruence|].
        injection Hout as -> _. cbn [startsWith] in Hhead. congruence.
      * discriminate.
    + destruct (strings_HasPrefix (d :: t') old).
      * rewrite Hn in Hout. destruct new as [|y new']; [congruence|].
        injection Hout as -> _. cbn [startsWith] in Hhead. congruence.
      * injection Hout as -> <-. exists t'. split; reflexivity.
Qed.

Lemma labelAt_app p q : labelAt p = true -> labelAt (p ++ q) = true.
Proof.
  unfold labelAt.
  destruct p as [|a [|b [|c [|d [|e p']]]]]; cbn [startsWith skipn app];
    rewrite ?andb_false_r; try discriminate.
  intros H; exact H.
Qed.

Lemma containsLabel_app p q :
  containsLabel (p ++ q) = false ->
  containsLabel p = false /\ containsLabel q = false.
Proof.
  induction p as [|c p IH]; intros H.
  - split; [reflexivity|exact H].
  - cbn [app containsLabel] in H. apply orb_false_iff in H. destruct H as [H1 H2].
    destruct (IH H2) as [Hp Hq]. split; [|exact Hq].
    cbn [containsLabel]. rewrite Hp, orb_false_r.
    destruct (labelAt (c :: p)) eqn:Hl; [|reflexivity].
    apply (labelAt_app _ q) in Hl. cbn [app] in Hl. congruence.
Qed.

Lemma trimLeft_suffix s : exists p, s = p ++ trimLeft s.
Proof.
  induction s as [|c s IH]; simpl.
  - exists []. reflexivity.
  - destruct (unicode_IsSpace c).
    + destruct IH as [p Hp]. exists (c :: p). simpl. f_equal. exact Hp.
    + exists []. reflexivity.
Qed.

Lemma strings_TrimSpace_keeps s :
  containsLabel s = false -> containsLabel (strings_TrimSpace s) = false.
Proof.
  intros H. unfold strings_TrimSpace.
  destruct (trimLeft_suffix s) as [p Hp].
  rewrite Hp in H. apply containsLabel_app in H. destruct H as [_ H].
  destruct (trimLeft_suffix (rev (trimLeft s))) as [q Hq].
  apply (f_equal (@rev rune)) in Hq. rewrite rev_involutive, rev_app_distr in Hq.
  rewrite Hq in H. apply containsLabel_app in H. tauto.
Qed.

Lemma asciiLower_T r : rune_eqb (asciiLowerRune r) (chr "t") = isT r.
Proof.
  unfold asciiLowerRune, isT, oneOf, existsb, rune_eqb, chr. simpl N_of_ascii.
  destruct (N.leb_spec 65 r), (N.leb_spec r 90); simpl;
  repeat match goal with
         | |- context [N.eqb ?a ?b] => destruct (N.eqb_spec a b)
         end; simpl; try reflexivity; lia.
Qed.

Ltac rune_cases :=
  repeat match goal with
         | |- context [N.leb ?a ?b] => destruct (N.leb_spec a b)
         end; simpl;
  repeat match goal with
         | |- context [N.eqb ?a ?b] => destruct (N.eqb_spec a b)
         end; simpl; try reflexivity; try lia.

Lemma asciiLower_L r : rune_eqb (asciiLowerRune r) (chr "l") = isL r.
Proof.
  unfold asciiLowerRune, isL, oneOf, existsb, rune_eqb, chr. simpl N_of_ascii.
  rune_cases.
Qed.
Lemma asciiLower_Semi r : rune_eqb (asciiLowerRune r) (chr ";") = isSemi r.
Proof.
  unfold asciiLowerRune, isSemi, oneOf, existsb, rune_eqb, chr. simpl N_of_ascii.
  rune_cases.
Qed.
Lemma asciiLower_D r : rune_eqb (asciiLowerRune r) (chr "d") = isD r.
Proof.
  unfold asciiLowerRune, isD, oneOf, existsb, rune_eqb, chr. simpl N_of_ascii.
  rune_cases.
Qed.
Lemma asciiLower_R r : rune_eqb (asciiLowerRune r) (chr "r") = isR r.
Proof.
  unfold asciiLowerRune, isR, oneOf, existsb, rune_eqb, chr. simpl N_of_ascii.
  rune_cases.
Qed.

Lemma hasPrefix_lower s :
  strings_HasPrefix (asciiLower s) (str "tl;dr") = labelAt s.
Proof.
  change (str "tl;dr") with [chr "t"; chr "l"; chr ";"; chr "d"; chr "r"].
  unfold labelAt.
  destruct s as [|a [|b [|c [|d [|e s']]]]];
    cbn [asciiLower List.map strings_HasPrefix startsWith skipn];
    rewrite ?asciiLower_T, ?asciiLower_L, ?asciiLower_Semi, ?asciiLower_D, ?asciiLower_R,
      ?andb_false_r, ?andb_true_r, ?andb_assoc; reflexivity.
Qed.

(** A text contains "tl;dr" in some mix of cases iff a label starts
    somewhere in it. *)
Lemma contains_lower s :
  strings_Contains (asciiLower s) (str "tl;dr") = containsLabel s.
Proof.
  induction s as [|c s IH].
  - reflexivity.
  - change (asciiLower (c :: s)) with (asciiLowerRune c :: asciiLower s).
    cbn [strings_Contains containsLabel]. rewrite IH. f_equal.
    apply (hasPrefix_lower (c :: s)).
Qed.

Lemma cleanResponse_fixed y :
  containsLabel y = false ->
  strings_HasPrefix y (str "#") = false ->
  strings_Contains y (nl ++ str "#") = false ->
  strings_Contains y (str ".  ") = false ->
  strings_Contains y (str ",  ") = false ->
  strings_TrimSpace y = y ->
  cleanResponse y = y.
Proof.
  intros Hl Hh1 Hh2 Hd Hc Ht. unfold cleanResponse, ReplaceAllString.
  change (str "") with (@nil rune).
  rewrite (removeLabels_fixed _ _ Hl).
  rewrite removeHeaders_fixed by auto.
  rewrite (strings_ReplaceAll_fixed _ _ _ Hd).
  rewrite (strings_ReplaceAll_fixed _ _ _ Hc).
  exact Ht.
Qed.

Lemma cleanResponse_trimmed x :
  strings_TrimSpace (cleanResponse x) = cleanResponse x.
Proof. unfold cleanResponse. apply strings_TrimSpace_idem. Qed.

(** C2 (amended): a second application of the sanitizer changes nothing
    when the output of the first contains no "tl;dr" in any case, no line
    that begins with [#], and no two spaces behind a full stop or a
    comma. *)
Theorem cleanResponse_idempotent_on_clean_output (x : gostring) :
  strings_Contains (asciiLower (cleanResponse x)) (str "tl;dr") = false ->
  strings_HasPrefix (cleanResponse x) (str "#") = false ->
  strings_Contains (cleanResponse x) (nl ++ str "#") = false ->
  strings_Contains (cleanResponse x) (str ".  ") = false ->
  strings_Contains (cleanResponse x) (str ",  ") = false ->
  cleanResponse (cleanResponse x) = cleanResponse x.
Proof.
  intros Hl Hh1 Hh2 Hd Hc. rewrite contains_lower in Hl.
  apply cleanResponse_fixed; auto. apply cleanResponse_trimmed.
Qed.

(** C2 fails as stated: removing the label inside "ttl;drl;dr" leaves
    "tl;dr", which a second application removes. *)
Lemma cleanResponse_not_idempotent :
  cleanResponse (cleanResponse (str "ttl;drl;dr")) <> cleanResponse (str "ttl;drl;dr").
Proof. vm_compute. discriminate. Qed.

(** If what stage 1 puts out first continues a label begun by the rune
    kept last, nothing has been cut out between the two. *)
Lemma removeLabels_joined s : forall last behind prev k x X,
  joinFree last behind k s = true ->
  removeLabels prev k s = x :: X ->
  joined last x = true ->
  behind = false /\
  exists s', k = 0 /\ s = x :: s' /\ X = removeLabels (Some x) 0 s' /\
             joinFree (Some x) false 0 s' = true /\ labelAt s = false.
Proof.
  induction s as [|c s' IH]; intros last behind prev k x X Hfree Hout Hx.
  - destruct k; cbn [rewriteAll] in Hout; [|discriminate].
    rewrite matchAt_tldrRegex in Hout. discriminate.
  - destruct k as [|k]; cbn [rewriteAll joinFree] in Hout, Hfree.
    + rewrite matchAt_tldrRegex in Hout.
      destruct (labelAt (c :: s')) eqn:Hl.
      * exfalso. cbn [Nat.add app] in Hout.
        destruct (IH _ _ _ _ _ _ Hfree Hout Hx) as [Hb _]. discriminate Hb.
      * destruct (perlSpace c && labelAt s') eqn:Hsp.
        -- exfalso. cbn [Nat.add app] in Hout.
           destruct (IH _ _ _ _ _ _ Hfree Hout Hx) as [Hb _]. discriminate Hb.
        -- injection Hout as -> <-.
           apply andb_true_iff in Hfree. destruct Hfree as [Hj Hfree].
           rewrite Hx, andb_true_r in Hj. apply negb_true_iff in Hj.
           split; [exact Hj|]. exists s'. auto.
    + exfalso. destruct (IH _ _ _ _ _ _ Hfree Hout Hx) as [Hb _]. discriminate Hb.
Qed.

Lemma joined_TL a b : isT a = true -> isL b = true -> joined (Some a) b = true.
Proof. intros Ha Hb. cbn [joined]. rewrite Ha, Hb. reflexivity. Qed.
Lemma joined_LS a b : isL a = true -> isSemi b = true -> joined (Some a) b = true.
Proof. intros Ha Hb. cbn [joined]. rewrite Ha, Hb. cbn. rewrite !orb_true_r. reflexivity. Qed.
Lemma joined_SD a b : isSemi a = true -> isD b = true -> joined (Some a) b = true.
Proof. intros Ha Hb. cbn [joined]. rewrite Ha, Hb. cbn. rewrite !orb_true_r. reflexivity. Qed.
Lemma joined_DR a b : isD a = true -> isR b = true -> joined (Some a) b = true.
Proof. intros Ha Hb. cbn [joined]. rewrite Ha, Hb. cbn. rewrite !orb_true_r. reflexivity. Qed.

(** Stage 1 leaves no label when no removed stretch joins one. *)
Lemma removeLabels_joinFree s : forall last behind prev k,
  joinFree last behind k s = true ->
  containsLabel (removeLabels prev k s) = false.
Proof.
  induction s as [|c s' IH]; intros last behind prev k Hfree.
  - destruct k; cbn [rewriteAll]; [|reflexivity].
    rewrite matchAt_tldrRegex. reflexivity.
  - destruct k as [|k]; cbn [rewriteAll joinFree] in *;
      [|exact (IH _ _ _ _ Hfree)].
    rewrite matchAt_tldrRegex.
    destruct (labelAt (c :: s')) eqn:Hl; [exact (IH _ _ _ _ Hfree)|].
    destruct (perlSpace c && labelAt s') eqn:Hsp; [exact (IH _ _ _ _ Hfree)|].
    apply andb_true_iff in Hfree. destruct Hfree as [_ Hfree].
    cbn [containsLabel]. rewrite (IH _ _ _ _ Hfree), orb_false_r.
    destruct (labelAt (c :: removeLabels (Some c) 0 s')) eqn:Hout; [|reflexivity].
    exfalso.
    apply labelAt_inv in Hout.
    destruct Hout as (a & b & c0 & d & e & X & Heq & Ha & Hb & Hc & Hd & He).
    injection Heq as <- Heq.
    destruct (@removeLabels_joined _ _ _ _ _ _ _ Hfree Heq (@joined_TL _ _ Ha Hb))
      as (_ & s1 & _ & -> & Heq1 & Hfree1 & _).
    symmetry in Heq1.
    destruct (@removeLabels_joined _ _ _ _ _ _ _ Hfree1 Heq1 (@joined_LS _ _ Hb Hc))
      as (_ & s2 & _ & -> & Heq2 & Hfree2 & _).
    symmetry in Heq2.
    destruct (@removeLabels_joined _ _ _ _ _ _ _ Hfree2 Heq2 (@joined_SD _ _ Hc Hd))
      as (_ & s3 & _ & -> & Heq3 & Hfree3 & _).
    symmetry in Heq3.
    destruct (@removeLabels_joined _ _ _ _ _ _ _ Hfree3 Heq3 (@joined_DR _ _ Hd He))
      as (_ & s4 & _ & -> & _).
    unfold labelAt in Hl. cbn [startsWith skipn] in Hl.
    rewrite Ha, Hb, Hc, Hd, He in Hl. discriminate.
Qed.



(** ** The handlers *)

Section HandlerFacts.
Variable World : Type.
Variable E : Collaborators World.
Variable config : Config.

Lemma posted_app a b : posted (a ++ b) = posted a ++ posted b.
Proof.
  induction a as [|c a IH]; [reflexivity|].
  destruct c; simpl; rewrite IH; reflexivity.
Qed.

Lemma fetched_app a b : fetched (a ++ b) = fetched a ++ fetched b.
Proof.
  induction a as [|c a IH]; [reflexivity|].
  destruct c; simpl; rewrite IH; reflexivity.
Qed.

Lemma extractTextFromHTML_run content (w : World) :
  extractTextFromHTML E content w =
  Done (plainText E content) w (parseLog E content).
Proof.
  unfold extractTextFromHTML, plainText, parseLog.
  destruct (html_Parse E content); reflexivity.
Qed.

Lemma bind_run {A B} (m : M World A) (f : A -> M World B) w a w' calls :
  m w = Done a w' calls -> bind m f w = after calls (f a w').
Proof. unfold bind. intros ->. reflexivity. Qed.

(** One turn of the loop. *)
Lemma fetchThread_loop_step fuel cur thread (w : World) :
  fetchThread_loop E (S fuel) (Some cur) thread w =
  after (parseLog E (Status_Content cur))
    (match Status_InReplyToID cur with
     | None => Done (line E cur :: thread) w []
     | Some v =>
         match GetStatus E (parentID v) w with
         | (Ok p, w1) =>
             after [CallGetStatus (parentID v)]
               (fetchThread_loop E fuel (Some p) (line E cur :: thread) w1)
         | (Err err, w1) =>
             Done (line E cur :: thread) w1
               [CallGetStatus (parentID v);
                CallLog (str "Error fetching parent status: %v") err]
         end
     end).
Proof.
  cbn [fetchThread_loop].
  erewrite bind_run by apply extractTextFromHTML_run.
  f_equal.
  destruct (Status_InReplyToID cur) as [v|]; [|reflexivity].
  unfold bind, call. fold (parentID v).
  destruct (GetStatus E (parentID v) w) as [[p|err] w1]; reflexivity.
Qed.

Lemma parseLog_fetchCall content : Forall fetchCall (parseLog E content).
Proof.
  unfold parseLog. destruct (html_Parse E content); constructor.
  - left. reflexivity.
  - constructor.
Qed.

(** The walk makes no other calls than fetches and its two log lines, and
    it does not panic. *)
Lemma fetchThread_loop_calls fuel : forall cur thread (w : World),
  match fetchThread_loop E fuel cur thread w with
  | Done _ _ calls => Forall fetchCall calls
  | Panic _ _ => False
  | OutOfFuel => True
  end.
Proof.
  induction fuel as [|fuel IH]; intros [cur|] thread w;
    try (cbn; constructor).
  rewrite fetchThread_loop_step.
  pose proof (parseLog_fetchCall (Status_Content cur)) as Hp.
  destruct (Status_InReplyToID cur) as [v|]; cbn [after].
  - destruct (GetStatus E (parentID v) w) as [[p|err] w1]; cbn [after].
    + specialize (IH (Some p) (line E cur :: thread) w1).
      destruct (fetchThread_loop E fuel (Some p) (line E cur :: thread) w1);
        cbn [after]; try exact IH.
      apply Forall_app. split; [exact Hp|]. constructor; [exact I|exact IH].
    + apply Forall_app. split; [exact Hp|].
      constructor; [exact I|]. constructor; [right; reflexivity|constructor].
  - rewrite app_nil_r. exact Hp.
Qed.

Lemma fetchThread_run fuel status (w : World) :
  fetchThread E fuel status w =
  match fetchThread_loop E fuel status [] w with
  | Done thread w' calls => Done (strings_Join thread (nl ++ nl), None) w' calls
  | Panic w' calls => Panic w' calls
  | OutOfFuel => OutOfFuel
  end.
Proof.
  unfold fetchThread, bind.
  destruct (fetchThread_loop E fuel status [] w); cbn; rewrite ?app_nil_r; reflexivity.
Qed.

(** A walk along resolved parents that ends where a status has no parent
    or where the fetch of the parent fails. *)
Lemma fetchThread_loop_chain w st chain top w2 :
  Resolves E w st chain top w2 ->
  (Status_InReplyToID top = None \/ exists err, FetchFails E w2 top err) ->
  forall thread fuel, List.length chain <= fuel ->
  exists w' calls,
    fetchThread_loop E fuel (Some st) thread w =
      Done (List.map (line E) (rev chain) ++ thread) w' calls /\
    List.length (fetched calls) =
      List.length chain - (match Status_InReplyToID top with None => 1 | Some _ => 0 end) /\
    (forall err, FetchFails E w2 top err ->
       In (CallLog (str "Error fetching parent status: %v") err) calls).
Proof.
  intros Hres Hstop.
  induction Hres as [w st | w st v p w1 chain top w2 Hv Hget Hres IH];
    intros thread fuel Hfuel.
  - destruct fuel as [|fuel]; [simpl in Hfuel; lia|].
    rewrite fetchThread_loop_step.
    destruct Hstop as [Hnone | [err (v & w' & Hv & Hget)]].
    + rewrite Hnone. cbn [after]. eexists _, _. split; [reflexivity|]. split.
      * rewrite app_nil_r. unfold parseLog.
        destruct (html_Parse E (Status_Content st)); reflexivity.
      * intros err (v & w' & Hv & _). congruence.
    + rewrite Hv, Hget. cbn [after]. eexists _, _. split; [reflexivity|]. split.
      * rewrite fetched_app. unfold parseLog.
        destruct (html_Parse E (Status_Content st)); reflexivity.
      * intros err' (v' & w'' & Hv' & Hget').
        assert (v' = v) by congruence. subst v'.
        assert (err' = err) by congruence. subst err'.
        apply in_or_app. right. right. left. reflexivity.
  - destruct fuel as [|fuel]; [simpl in Hfuel; lia|].
    rewrite fetchThread_loop_step. rewrite Hv, Hget.
    destruct (IH Hstop (line E st :: thread) fuel) as (w' & calls & Hrun & Hn & Hlog).
    { simpl in Hfuel. lia. }
    rewrite Hrun. cbn [after]. eexists _, _. split; [|split].
    + f_equal. cbn [rev]. rewrite map_app, <- app_assoc. reflexivity.
    + rewrite !fetched_app. cbn [fetched app List.length].
      assert (Hp : fetched (parseLog E (Status_Content st)) = []).
      { unfold parseLog. destruct (html_Parse E (Status_Content st)); reflexivity. }
      rewrite Hp. cbn [app List.length]. rewrite Hn.
      assert (1 <= List.length chain) by (inversion Hres; simpl; lia).
      destruct (Status_InReplyToID top); lia.
    + intros err Hfail. apply in_or_app. right. right. apply Hlog. exact Hfail.
Qed.

Lemma summarizeThread_run thread isSinglePost (w : World) :
  exists r w' calls,
    summarizeThread E config thread isSinglePost w = Done r w' calls /\
    Forall generationCall calls.
Proof.
  unfold summarizeThread.
  destruct (string_eqb (LLM_Provider config) (str "gemini")).
  - unfold generateWithGemini, bind, call.
    match goal with |- context [GenerateContent E ?p w] =>
      destruct (GenerateContent E p w) as [[resp|err] w'] end;
      cbn; eexists _, _, _; (split; [reflexivity|repeat constructor]).
  - destruct (string_eqb (LLM_Provider config) (str "ollama")).
    + unfold generateWithOllama, bind, call.
      match goal with |- context [ollama_run E ?m ?p w] =>
        destruct (ollama_run E m p w) as [[out|err] w'] end;
        cbn; eexists _, _, _; (split; [reflexivity|repeat constructor]).
    + cbn. eexists _, _, _. split; [reflexivity|constructor].
Qed.

Lemma posted_fetchCalls calls : Forall fetchCall calls -> posted calls = [].
Proof.
  induction 1 as [|c calls Hc _ IH]; [reflexivity|].
  destruct c; simpl in *; try contradiction; exact IH.
Qed.

Lemma posted_generationCalls calls :
  Forall generationCall calls -> posted calls = [].
Proof.
  induction 1 as [|c calls Hc _ IH]; [reflexivity|].
  destruct c; simpl in *; try contradiction; exact IH.
Qed.

(** A mention that is not ignored: the walk, the generation, the reply. *)
Lemma handleMention_run fuel n st (w : World) thread w1 c1 r w2 c2 pr w3 :
  string_eqb (Account_Acct (Notification_Account n))
    (os_Getenv E (str "MASTODON_USERNAME") w) = false ->
  Notification_Status n = Some st ->
  Account_Bot (Status_Account st) = false ->
  fetchThread_loop E fuel (Some st) [] w = Done thread w1 c1 ->
  summarizeThread E config (strings_Join thread (nl ++ nl)) false w1
    = Done r w2 c2 ->
  PostStatus E (mentionToot n st (summaryOf r)) w2 = (pr, w3) ->
  handleMention E config fuel n w =
  Done tt w3
    (c1 ++ c2 ++ summaryLog r ++
     [CallPostStatus (mentionToot n st (summaryOf r));
      postLog (str "Posted summary: %s" ++ nl)
        (Toot_Status (mentionToot n st (summaryOf r)))
        (str "Error posting summary: %v") pr]).
Proof.
  intros Hself Hst Hbot Hwalk Hsum Hpost.
  unfold handleMention.
  cbv [bind getenv]. rewrite Hself, Hst.
  cbv [deref ret]. cbn [after app]. rewrite Hbot.
  cbv beta iota zeta. rewrite fetchThread_run, Hwalk.
  cbv beta iota zeta. rewrite Hsum.
  destruct r as [summary|err]; cbv [log_Printf emit call];
    cbn [after app summaryOf summaryLog] in *;
    match goal with
    | |- context [PostStatus E ?t w2] =>
        replace (PostStatus E t w2) with (pr, w3)
          by (rewrite <- Hpost; unfold apology; rewrite <- ?app_assoc; reflexivity)
    end;
    destruct pr; cbn [after app postLog Toot_Status mentionToot];
    rewrite ?app_nil_r, <- ?app_assoc; reflexivity.
Qed.

Lemma handleMention_self fuel n (w : World) :
  string_eqb (Account_Acct (Notification_Account n))
    (os_Getenv E (str "MASTODON_USERNAME") w) = true ->
  handleMention E config fuel n w = Done tt w [].
Proof.
  intros H. unfold handleMention. cbv [bind getenv]. rewrite H. reflexivity.
Qed.

Lemma handleMention_bot fuel n st (w : World) :
  Notification_Status n = Some st ->
  Account_Bot (Status_Account st) = true ->
  handleMention E config fuel n w = Done tt w [].
Proof.
  intros Hst Hbot. unfold handleMention. cbv [bind getenv].
  destruct (string_eqb _ _); [reflexivity|].
  rewrite Hst. cbv [deref ret]. cbn [after app]. rewrite Hbot. reflexivity.
Qed.

Lemma handleMention_nil fuel n (w : World) :
  string_eqb (Account_Acct (Notification_Account n))
    (os_Getenv E (str "MASTODON_USERNAME") w) = false ->
  Notification_Status n = None ->
  handleMention E config fuel n w = Panic w [].
Proof.
  intros H Hst. unfold handleMention. cbv [bind getenv]. rewrite H, Hst.
  reflexivity.
Qed.

Lemma handleMention_outOfFuel fuel n st (w : World) :
  string_eqb (Account_Acct (Notification_Account n))
    (os_Getenv E (str "MASTODON_USERNAME") w) = false ->
  Notification_Status n = Some st ->
  Account_Bot (Status_Account st) = false ->
  fetchThread_loop E fuel (Some st) [] w = OutOfFuel ->
  handleMention E config fuel n w = OutOfFuel.
Proof.
  intros Hself Hst Hbot Hwalk. unfold handleMention.
  cbv [bind getenv]. rewrite Hself, Hst.
  cbv [deref ret]. cbn [after app]. rewrite Hbot.
  cbv beta iota zeta. rewrite fetchThread_run, Hwalk. reflexivity.
Qed.

(** Every way a mention can be handled. *)
Lemma handleMention_cases fuel n (w : World) :
  callsOf (handleMention E config fuel n w) = [] \/
  exists st thread w1 c1 r w2 c2 pr w3,
    string_eqb (Account_Acct (Notification_Account n))
      (os_Getenv E (str "MASTODON_USERNAME") w) = false /\
    Notification_Status n = Some st /\
    Account_Bot (Status_Account st) = false /\
    fetchThread_loop E fuel (Some st) [] w = Done thread w1 c1 /\
    Forall fetchCall c1 /\
    summarizeThread E config (strings_Join thread (nl ++ nl)) false w1
      = Done r w2 c2 /\
    Forall generationCall c2 /\
    PostStatus E (mentionToot n st (summaryOf r)) w2 = (pr, w3) /\
    handleMention E config fuel n w =
      Done tt w3
        (c1 ++ c2 ++ summaryLog r ++
         [CallPostStatus (mentionToot n st (summaryOf r));
          postLog (str "Posted summary: %s" ++ nl)
            (Toot_Status (mentionToot n st (summaryOf r)))
            (str "Error posting summary: %v") pr]).
Proof.
  destruct (string_eqb (Account_Acct (Notification_Account n))
              (os_Getenv E (str "MASTODON_USERNAME") w)) eqn:Hself.
  { left. rewrite handleMention_self by exact Hself. reflexivity. }
  destruct (Notification_Status n) as [st|] eqn:Hst.
  2:{ left. rewrite handleMention_nil by assumption. reflexivity. }
  destruct (Account_Bot (Status_Account st)) eqn:Hbot.
  { left. erewrite handleMention_bot by eassumption. reflexivity. }
  pose proof (fetchThread_loop_calls fuel (Some st) [] w) as Hcalls.
  destruct (fetchThread_loop E fuel (Some st) [] w) as [thread w1 c1| |] eqn:Hwalk.
  - destruct (summarizeThread_run (strings_Join thread (nl ++ nl)) false w1)
      as (r & w2 & c2 & Hsum & Hgen).
    destruct (PostStatus E (mentionToot n st (summaryOf r)) w2) as [pr w3] eqn:Hpost.
    right. exists st, thread, w1, c1, r, w2, c2, pr, w3.
    repeat (split; [first [assumption | reflexivity]|]).
    eapply handleMention_run; eassumption.
  - contradiction.
  - left. erewrite handleMention_outOfFuel by eassumption. reflexivity.
Qed.

Lemma posted_summaryLog r : posted (summaryLog r) = [].
Proof. destruct r; reflexivity. Qed.

Lemma posted_postLog f a g pr : posted [postLog f a g pr] = [].
Proof. destruct pr; reflexivity. Qed.

(** What a mention gets posted: nothing, or the one composed reply. *)
Lemma handleMention_posted fuel n (w : World) :
  posted (callsOf (handleMention E config fuel n w)) = [] \/
  exists st r,
    Notification_Status n = Some st /\
    posted (callsOf (handleMention E config fuel n w))
      = [mentionToot n st (summaryOf r)].
Proof.
  destruct (handleMention_cases fuel n w) as
    [Hnone | (st & thread & w1 & c1 & r & w2 & c2 & pr & w3 &
              _ & Hst & _ & _ & Hc1 & _ & Hc2 & _ & Hrun)].
  - left. rewrite Hnone. reflexivity.
  - right. exists st, r. split; [exact Hst|].
    rewrite Hrun. cbn [callsOf]. rewrite !posted_app.
    rewrite (posted_fetchCalls Hc1), (posted_generationCalls Hc2), posted_summaryLog.
    destruct pr; reflexivity.
Qed.

Lemma checkForLongPost_short st (w : World) :
  isLongPost E (plainText E (Status_Content st)) = false ->
  checkForLongPost E config st w = Done tt w (parseLog E (Status_Content st)).
Proof.
  intros Hshort. unfold checkForLongPost.
  erewrite bind_run by apply extractTextFromHTML_run.
  rewrite Hshort. cbn [ret after]. rewrite app_nil_r. reflexivity.
Qed.

Lemma checkForLongPost_failed st (w : World) err w1 c1 :
  isLongPost E (plainText E (Status_Content st)) = true ->
  summarizeThread E config (plainText E (Status_Content st)) true w
    = Done (Err err) w1 c1 ->
  checkForLongPost E config st w =
  Done tt w1
    (parseLog E (Status_Content st) ++ c1 ++
     [CallLog (str "Error generating TL;DR: %v") err]).
Proof.
  intros Hlong Hsum. unfold checkForLongPost.
  erewrite bind_run by apply extractTextFromHTML_run.
  rewrite Hlong. cbv [bind]. rewrite Hsum. reflexivity.
Qed.

Lemma checkForLongPost_run st (w : World) summary w1 c1 pr w2 :
  isLongPost E (plainText E (Status_Content st)) = true ->
  summarizeThread E config (plainText E (Status_Content st)) true w
    = Done (Ok summary) w1 c1 ->
  PostStatus E (longPostToot st summary) w1 = (pr, w2) ->
  checkForLongPost E config st w =
  Done tt w2
    (parseLog E (Status_Content st) ++ c1 ++
     [CallPostStatus (longPostToot st summary);
      postLog (str "Posted TL;DR for user %s" ++ nl)
        (Account_Acct (Status_Account st))
        (str "Error posting TL;DR: %v") pr]).
Proof.
  intros Hlong Hsum Hpost. unfold checkForLongPost.
  erewrite bind_run by apply extractTextFromHTML_run.
  rewrite Hlong. cbv [bind]. rewrite Hsum.
  cbv [call log_Printf fmt_Printf emit].
  match goal with
  | |- context [PostStatus E ?t w1] =>
      replace (PostStatus E t w1) with (pr, w2) by (rewrite <- Hpost; reflexivity)
  end.
  destruct pr; cbn [after app postLog]; rewrite ?app_nil_r; reflexivity.
Qed.

(** What a new post gets posted: nothing, or the one composed reply. *)
Lemma checkForLongPost_posted st (w : World) :
  posted (callsOf (checkForLongPost E config st w)) = [] \/
  exists summary w1 c1,
    isLongPost E (plainText E (Status_Content st)) = true /\
    summarizeThread E config (plainText E (Status_Content st)) true w
      = Done (Ok summary) w1 c1 /\
    posted (callsOf (checkForLongPost E config st w))
      = [longPostToot st summary].
Proof.
  assert (Hp : posted (parseLog E (Status_Content st)) = []).
  { unfold parseLog. destruct (html_Parse E (Status_Content st)); reflexivity. }
  destruct (isLongPost E (plainText E (Status_Content st))) eqn:Hlong.
  - destruct (summarizeThread_run (plainText E (Status_Content st)) true w)
      as (r & w1 & c1 & Hsum & Hgen).
    destruct r as [summary|err].
    + destruct (PostStatus E (longPostToot st summary) w1) as [pr w2] eqn:Hpost.
      right. exists summary, w1, c1. repeat (split; [first [assumption|reflexivity]|]).
      erewrite checkForLongPost_run by eassumption.
      cbn [callsOf]. rewrite !posted_app, Hp, (posted_generationCalls Hgen).
      destruct pr; reflexivity.
    + left. erewrite checkForLongPost_failed by eassumption.
      cbn [callsOf]. rewrite !posted_app, Hp, (posted_generationCalls Hgen).
      reflexivity.
  - left. rewrite checkForLongPost_short by assumption. exact Hp.
Qed.
End HandlerFacts.

(** ** Properties of the handlers *)

Lemma string_eqb_eq a : forall b, string_eqb a b = true <-> a = b.
Proof.
  induction a as [|x a IH]; intros [|y b]; cbn [string_eqb];
    try (split; [discriminate|congruence]); try tauto.
  unfold rune_eqb. rewrite andb_true_iff, N.eqb_eq, IH.
  split; [intros [-> ->]; reflexivity|intros H; injection H; auto].
Qed.

Lemma string_eqb_refl a : string_eqb a a = true.
Proof. apply string_eqb_eq. reflexivity. Qed.

Section Claims.
Variable World : Type.
Variable E : Collaborators World.
Variable config : Config.

Lemma startsClean_app s t : s <> [] -> startsClean s -> startsClean (s ++ t).
Proof. destruct s; [congruence|]. intros _ H. exact H. Qed.

Lemma cleanResponse_apology err :
  plainError err = true -> cleanResponse (apology ++ err) = apology ++ err.
Proof.
  unfold plainError. rewrite contains_lower.
  rewrite !andb_true_iff, !negb_true_iff.
  intros [[[[[Hl Hh1] Hh2] Hd] Hc] Hlast].
  apply cleanResponse_fixed.
  - exact Hl.
  - reflexivity.
  - cbn. cbn in Hh1, Hh2. rewrite Hh1, Hh2. reflexivity.
  - cbn. cbn in Hd. rewrite Hd. reflexivity.
  - cbn. cbn in Hc. rewrite Hc. reflexivity.
  - apply strings_TrimSpace_fixed; [reflexivity|].
    rewrite rev_app_distr.
    destruct (rev err) as [|c r]; [discriminate|].
    cbn [startsWord] in Hlast. apply negb_true_iff in Hlast. exact Hlast.
Qed.

Lemma in_posted_one (t u : Toot) : In t [u] -> t = u.
Proof. intros [H|[]]. symmetry. exact H. Qed.

(** C1 (the long-post path breaks it): the reply to a long post carries
    the visibility of the post as it is, so that the reply to a public
    post is public. *)
Theorem checkForLongPost_keeps_visibility st (w : World) t :
  In t (posted (callsOf (checkForLongPost E config st w))) ->
  Toot_Visibility t = Status_Visibility st.
Proof.
  destruct (checkForLongPost_posted E config st w)
    as [-> | (summary & w1 & c1 & _ & _ & ->)].
  - intros [].
  - intros Ht. apply in_posted_one in Ht. subst t. reflexivity.
Qed.

(** C4 (amended): on both paths an empty content warning stays empty, one
    that begins with "re:" (with or without a space behind it) is passed
    on unchanged, and any other gets "re: " put in front. *)
Theorem reply_content_warning :
  (forall fuel n st (w : World) t,
     Notification_Status n = Some st ->
     In t (posted (callsOf (handleMention E config fuel n w))) ->
     (Status_SpoilerText st = [] -> Toot_SpoilerText t = []) /\
     (Status_SpoilerText st <> [] ->
      strings_HasPrefix (Status_SpoilerText st) (str "re:") = true ->
      Toot_SpoilerText t = Status_SpoilerText st) /\
     (Status_SpoilerText st <> [] ->
      strings_HasPrefix (Status_SpoilerText st) (str "re:") = false ->
      Toot_SpoilerText t = str "re: " ++ Status_SpoilerText st)) /\
  (forall st (w : World) t,
     In t (posted (callsOf (checkForLongPost E config st w))) ->
     (Status_SpoilerText st = [] -> Toot_SpoilerText t = []) /\
     (Status_SpoilerText st <> [] ->
      strings_HasPrefix (Status_SpoilerText st) (str "re:") = true ->
      Toot_SpoilerText t = Status_SpoilerText st) /\
     (Status_SpoilerText st <> [] ->
      strings_HasPrefix (Status_SpoilerText st) (str "re:") = false ->
      Toot_SpoilerText t = str "re: " ++ Status_SpoilerText st)).
Proof.
  assert (Hrule : forall cw,
    (cw = [] -> replyContentWarning cw = []) /\
    (cw <> [] -> strings_HasPrefix cw (str "re:") = true ->
     replyContentWarning cw = cw) /\
    (cw <> [] -> strings_HasPrefix cw (str "re:") = false ->
     replyContentWarning cw = str "re: " ++ cw)).
  { intros cw. unfold replyContentWarning. repeat split.
    - intros ->. reflexivity.
    - intros _ ->. rewrite andb_false_r. reflexivity.
    - intros Hne ->. destruct cw; [congruence|]. reflexivity. }
  split.
  - intros fuel n st w t Hst Ht.
    destruct (handleMention_posted E config fuel n w) as [Hp | (st' & r & Hst' & Hp)];
      rewrite Hp in Ht; [destruct Ht|].
    apply in_posted_one in Ht. subst t.
    assert (st' = st) by congruence. subst st'.
    apply Hrule.
  - intros st w t Ht.
    destruct (checkForLongPost_posted E config st w)
      as [Hp | (summary & w1 & c1 & _ & _ & Hp)];
      rewrite Hp in Ht; [destruct Ht|].
    apply in_posted_one in Ht. subst t.
    apply Hrule.
Qed.

(** C6: on a chain A <- B <- C whose fetches succeed and whose root A has
    no parent, the walk from C puts the line of A before the line of B
    before the line of C, each in front of what was collected before, and
    [fetchThread] returns them joined in that order, with no error. *)
Theorem fetchThread_chain_of_three (A B C : Status) (idA idB : gostring)
    (w w1 w2 : World) (fuel : nat) :
  Status_InReplyToID C = Some idB ->
  GetStatus E (parentID idB) w = (Ok B, w1) ->
  Status_InReplyToID B = Some idA ->
  GetStatus E (parentID idA) w1 = (Ok A, w2) ->
  Status_InReplyToID A = None ->
  3 <= fuel ->
  (forall thread, exists w' calls,
     fetchThread_loop E fuel (Some C) thread w =
     Done (line E A :: line E B :: line E C :: thread) w' calls) /\
  exists w' calls,
    fetchThread E fuel (Some C) w =
    Done (line E A ++ (nl ++ nl) ++ line E B ++ (nl ++ nl) ++ line E C, None)
      w' calls.
Proof.
  intros HC HgetB HB HgetA HA Hfuel.
  assert (Hres : Resolves E w C [C; B; A] A w2).
  { eapply Resolves_parent; [exact HC|exact HgetB|].
    eapply Resolves_parent; [exact HB|exact HgetA|].
    apply Resolves_here. }
  split.
  - intros thread.
    destruct (fetchThread_loop_chain Hres (or_introl HA) thread (fuel:=fuel))
      as (w' & calls & Hrun & _); [exact Hfuel|].
    exists w', calls. exact Hrun.
  - destruct (fetchThread_loop_chain Hres (or_introl HA) [] (fuel:=fuel))
      as (w' & calls & Hrun & _); [exact Hfuel|].
    exists w', calls. rewrite fetchThread_run, Hrun. reflexivity.
Qed.

(** C7: when the fetch of a parent fails after the walk has resolved some
    statuses, the walk stops there and [fetchThread] still returns the
    lines of the statuses resolved so far, root-most first, with a [nil]
    error; the failure is only logged. *)
Theorem fetchThread_partial_on_failure (w : World) leaf chain top w1 err fuel :
  Resolves E w leaf chain top w1 ->
  FetchFails E w1 top err ->
  List.length chain <= fuel ->
  exists w' calls,
    fetchThread E fuel (Some leaf) w =
      Done (strings_Join (List.map (line E) (rev chain)) (nl ++ nl), None)
        w' calls /\
    List.length (fetched calls) = List.length chain /\
    In (CallLog (str "Error fetching parent status: %v") err) calls.
Proof.
  intros Hres Hfail Hfuel.
  destruct (fetchThread_loop_chain Hres (or_intror (ex_intro _ err Hfail)) []
              (fuel:=fuel)) as (w' & calls & Hrun & Hn & Hlog); [exact Hfuel|].
  exists w', calls. rewrite fetchThread_run, Hrun, app_nil_r.
  split; [reflexivity|]. split.
  - rewrite Hn. destruct Hfail as (v & w'' & Hv & _). rewrite Hv. lia.
  - apply Hlog. exact Hfail.
Qed.

Lemma fetchCall_not_thread_log calls arg :
  Forall fetchCall calls ->
  ~ In (CallLog (str "Error fetching thread: %v") arg) calls.
Proof.
  intros Hall Hin. rewrite Forall_forall in Hall.
  specialize (Hall _ Hin). cbn [fetchCall] in Hall.
  destruct Hall as [H|H]; vm_compute in H; discriminate H.
Qed.

Lemma generationCall_not_log calls format arg :
  Forall generationCall calls -> ~ In (CallLog format arg) calls.
Proof.
  intros Hall Hin. rewrite Forall_forall in Hall.
  exact (Hall _ Hin).
Qed.

(** C9: [fetchThread] never hands an error to its caller, whatever the
    status and whatever the fetch collaborator does: a run that ends
    returns the [nil] error and none panics; a walk that comes to an end
    is a run that ends; and [handleMention] never takes its "Error
    fetching thread" branch. *)
Theorem fetchThread_error_is_nil :
  (forall fuel status (w : World),
     match fetchThread E fuel status w with
     | Done (_, err) _ _ => err = None
     | Panic _ _ => False
     | OutOfFuel => True
     end) /\
  (forall (w : World) st chain top w1 fuel,
     Resolves E w st chain top w1 ->
     (Status_InReplyToID top = None \/ exists err, FetchFails E w1 top err) ->
     List.length chain <= fuel ->
     exists text w' calls,
       fetchThread E fuel (Some st) w = Done (text, None) w' calls) /\
  (forall fuel n (w : World) arg,
     ~ In (CallLog (str "Error fetching thread: %v") arg)
         (callsOf (handleMention E config fuel n w))).
Proof.
  split; [|split].
  - intros fuel status w. rewrite fetchThread_run.
    pose proof (fetchThread_loop_calls E fuel status [] w) as H.
    destruct (fetchThread_loop E fuel status [] w); [reflexivity|exact H|exact I].
  - intros w st chain top w1 fuel Hres Hstop Hfuel.
    destruct (fetchThread_loop_chain Hres Hstop [] (fuel:=fuel))
      as (w' & calls & Hrun & _); [exact Hfuel|].
    eexists _, w', calls. rewrite fetchThread_run, Hrun. reflexivity.
  - intros fuel n w arg Hin.
    destruct (handleMention_cases E config fuel n w) as
      [Hnone | (st & thread & w1 & c1 & r & w2 & c2 & pr & w3 &
                _ & _ & _ & _ & Hc1 & _ & Hc2 & _ & Hrun)].
    + rewrite Hnone in Hin. exact Hin.
    + rewrite Hrun in Hin. cbn [callsOf] in Hin.
      apply in_app_or in Hin. destruct Hin as [Hin|Hin].
      { exact (fetchCall_not_thread_log _ Hc1 Hin). }
      apply in_app_or in Hin. destruct Hin as [Hin|Hin].
      { exact (generationCall_not_log _ _ Hc2 Hin). }
      apply in_app_or in Hin. destruct Hin as [Hin|Hin].
      { destruct r; [exact Hin|]. destruct Hin as [Hin|[]].
        vm_compute in Hin. discriminate Hin. }
      destruct Hin as [Hin|[Hin|[]]]; [discriminate Hin|].
      destruct pr; [discriminate Hin|].
      vm_compute in Hin. discriminate Hin.
Qed.

(** C10: a mention is dropped without a fetch, a generation or a reply
    when the mentioning account is automated, when it is the bot's own
    handle, and also when the author of the mentioned status is automated,
    whoever the mentioning account is. *)
Theorem mention_ignored fuel n (w : World) :
  Notification_Type n = str "mention" ->
  Account_Bot (Notification_Account n) = true \/
  Account_Acct (Notification_Account n)
    = os_Getenv E (str "MASTODON_USERNAME") w \/
  (exists st, Notification_Status n = Some st /\
              Account_Bot (Status_Account st) = true) ->
  handleEvent E config fuel (NotificationEvent n) w = Done tt w [].
Proof.
  intros Htype Hcases. cbn [handleEvent]. rewrite Htype.
  change (string_eqb (str "mention") (str "mention")) with true. cbv iota.
  destruct (Account_Bot (Notification_Account n)) eqn:Hbot; [reflexivity|].
  destruct Hcases as [H | [H | (st & Hst & Hsb)]].
  - discriminate H.
  - apply handleMention_self. rewrite H. apply string_eqb_refl.
  - eapply handleMention_bot; eassumption.
Qed.

(** C8 (amended): when generation fails, [handleMention] still makes
    exactly one reply, "@<mentioner> TL;DR: " followed by the sanitized
    apology and error text, which is the apology and the error text
    themselves whenever the error text is one the sanitizer leaves alone;
    [checkForLongPost] makes none. *)
Theorem backend_error_replies :
  (forall fuel n st (w : World) thread w1 c1 err w2 c2,
     string_eqb (Account_Acct (Notification_Account n))
       (os_Getenv E (str "MASTODON_USERNAME") w) = false ->
     Notification_Status n = Some st ->
     Account_Bot (Status_Account st) = false ->
     fetchThread E fuel (Some st) w = Done (thread, None) w1 c1 ->
     summarizeThread E config thread false w1 = Done (Err err) w2 c2 ->
     exists t,
       posted (callsOf (handleMention E config fuel n w)) = [t] /\
       Toot_Status t =
         str "@" ++ Account_Acct (Notification_Account n) ++ str " TL;DR: " ++
         cleanResponse (apology ++ err) /\
       (plainError err = true ->
        Toot_Status t =
          str "@" ++ Account_Acct (Notification_Account n) ++ str " TL;DR: " ++
          apology ++ err)) /\
  (forall st (w : World) err w1 c1,
     summarizeThread E config (plainText E (Status_Content st)) true w
       = Done (Err err) w1 c1 ->
     posted (callsOf (checkForLongPost E config st w)) = []).
Proof.
  split.
  - intros fuel n st w thread w1 c1 err w2 c2 Hself Hst Hbot Hfetch Hsum.
    rewrite fetchThread_run in Hfetch.
    pose proof (fetchThread_loop_calls E fuel (Some st) [] w) as Hc1.
    destruct (fetchThread_loop E fuel (Some st) [] w) as [lines w1' c1'| |] eqn:Hwalk;
      try discriminate Hfetch.
    injection Hfetch as <- <- <-.
    destruct (summarizeThread_run E config (strings_Join lines (nl ++ nl)) false w1')
      as (r & w2' & c2' & Hsum' & Hc2).
    pose proof (eq_trans (eq_sym Hsum) Hsum') as Heq.
    injection Heq as <- <- <-.
    destruct (PostStatus E (mentionToot n st (summaryOf (Err err))) w2)
      as [pr w3] eqn:Hpost.
    exists (mentionToot n st (summaryOf (Err err))).
    erewrite handleMention_run by eassumption.
    cbn [callsOf]. rewrite !posted_app.
    rewrite (posted_fetchCalls Hc1), (posted_generationCalls Hc2).
    split; [destruct pr; reflexivity|].
    assert (Hbody : forall body,
      fmt_Sprintf (str "@%s TL;DR: %s")
        [Account_Acct (Notification_Account n); body] =
      str "@" ++ Account_Acct (Notification_Account n) ++ str " TL;DR: " ++ body).
    { intros body. cbn. rewrite app_nil_r. reflexivity. }
    cbn [mentionToot Toot_Status summaryOf]. rewrite Hbody.
    split; [reflexivity|].
    intros Hplain. rewrite (cleanResponse_apology _ Hplain). reflexivity.
  - intros st w err w1 c1 Hsum.
    destruct (checkForLongPost_posted E config st w)
      as [Hp | (summary & w1' & c1' & _ & Hsum' & _)]; [exact Hp|].
    rewrite Hsum in Hsum'. discriminate Hsum'.
Qed.
End Claims.

Import Demo.

Lemma checkForLongPost_keeps_visibility_witness :
  In (longPostToot (longPost 201 (str "public") (str "")) (str "They talked."))
     (posted (callsOf (checkForLongPost collaborators gemini
                         (longPost 201 (str "public") (str "")) working))) /\
  Toot_Visibility
    (longPostToot (longPost 201 (str "public") (str "")) (str "They talked."))
  = str "public".
Proof.
  split.
  - vm_compute. left. reflexivity.
  - apply (@checkForLongPost_keeps_visibility _ collaborators gemini
             (longPost 201 (str "public") (str "")) working).
    vm_compute. left. reflexivity.
Defined.

Lemma content_warning_claim_fails :
  exists t,
    In t (posted (callsOf (handleMention collaborators gemini 5
                             (mention alice stD) working))) /\
    Toot_SpoilerText t = str "re:cap" /\
    claimedContentWarning (Status_SpoilerText stD) = str "re: re:cap" /\
    Toot_SpoilerText t <> claimedContentWarning (Status_SpoilerText stD).
Proof.
  eexists. split; [vm_compute; left; reflexivity|].
  split; [reflexivity|]. split; [reflexivity|].
  vm_compute. discriminate.
Qed.

Lemma reply_content_warning_witness :
  Notification_Status (mention bob stC) = Some stC /\
  In (mentionToot (mention bob stC) stC (str "They talked."))
     (posted (callsOf (handleMention collaborators gemini 5
                         (mention bob stC) working))) /\
  Status_SpoilerText stC <> [] /\
  strings_HasPrefix (Status_SpoilerText stC) (str "re:") = false /\
  Toot_SpoilerText (mentionToot (mention bob stC) stC (str "They talked."))
  = str "re: spoilers".
Proof.
  assert (H1 : Notification_Status (mention bob stC) = Some stC) by reflexivity.
  assert (H2 : In (mentionToot (mention bob stC) stC (str "They talked."))
     (posted (callsOf (handleMention collaborators gemini 5
                         (mention bob stC) working))))
    by (vm_compute; left; reflexivity).
  assert (H3 : Status_SpoilerText stC <> []) by discriminate.
  assert (H4 : strings_HasPrefix (Status_SpoilerText stC) (str "re:") = false)
    by reflexivity.
  repeat (split; [assumption|]).
  exact (proj2 (proj2 (proj1 (reply_content_warning collaborators gemini)
                         5 (mention bob stC) stC working _ H1 H2)) H3 H4).
Defined.


Lemma fetchThread_chain_of_three_witness :
  Status_InReplyToID stC = Some (str "101") /\
  GetStatus collaborators (parentID (str "101")) working = (Ok stB, working) /\
  Status_InReplyToID stB = Some (str "100") /\
  GetStatus collaborators (parentID (str "100")) working = (Ok stA, working) /\
  Status_InReplyToID stA = None /\
  3 <= 3 /\
  exists w' calls,
    fetchThread collaborators 3 (Some stC) working =
    Done (line collaborators stA ++ (nl ++ nl) ++ line collaborators stB ++
          (nl ++ nl) ++ line collaborators stC, None) w' calls.
Proof.
  repeat (split; [first [reflexivity | lia]|]).
  apply (@fetchThread_chain_of_three _ collaborators stA stB stC
           (str "100") (str "101") working working working 3);
    first [reflexivity | lia].
Defined.

Lemma fetchThread_partial_on_failure_witness :
  Resolves collaborators rootGone stC [stC; stB] stB rootGone /\
  FetchFails collaborators rootGone stB (str "404 Not Found") /\
  2 <= 2 /\
  exists w' calls,
    fetchThread collaborators 2 (Some stC) rootGone =
      Done (strings_Join
              (List.map (line collaborators) (rev [stC; stB])) (nl ++ nl), None)
        w' calls /\
    List.length (fetched calls) = 2 /\
    In (CallLog (str "Error fetching parent status: %v") (str "404 Not Found"))
      calls.
Proof.
  assert (H1 : Resolves collaborators rootGone stC [stC; stB] stB rootGone).
  { eapply Resolves_parent; [reflexivity|reflexivity|apply Resolves_here]. }
  assert (H2 : FetchFails collaborators rootGone stB (str "404 Not Found")).
  { exists (str "100"), rootGone. split; reflexivity. }
  split; [exact H1|]. split; [exact H2|]. split; [lia|].
  apply (fetchThread_partial_on_failure (fuel:=2) H1 H2). simpl. lia.
Defined.

Lemma fetchThread_error_is_nil_witness :
  Resolves collaborators rootGone stC [stC; stB] stB rootGone /\
  (Status_InReplyToID stB = None \/
   exists err, FetchFails collaborators rootGone stB err) /\
  2 <= 5 /\
  exists text w' calls,
    fetchThread collaborators 5 (Some stC) rootGone = Done (text, None) w' calls.
Proof.
  assert (H1 : Resolves collaborators rootGone stC [stC; stB] stB rootGone).
  { eapply Resolves_parent; [reflexivity|reflexivity|apply Resolves_here]. }
  assert (H2 : Status_InReplyToID stB = None \/
               exists err, FetchFails collaborators rootGone stB err).
  { right. exists (str "404 Not Found"), (str "100"), rootGone.
    split; reflexivity. }
  split; [exact H1|]. split; [exact H2|]. split; [lia|].
  apply (proj1 (proj2 (fetchThread_error_is_nil collaborators gemini))
           rootGone stC [stC; stB] stB rootGone 5 H1 H2).
  simpl. lia.
Defined.

Lemma mention_ignored_witness :
  Notification_Type (mention bob stF) = str "mention" /\
  (exists st, Notification_Status (mention bob stF) = Some st /\
              Account_Bot (Status_Account st) = true) /\
  handleEvent collaborators gemini 5 (NotificationEvent (mention bob stF))
    working
  = Done tt working [].
Proof.
  assert (H : exists st, Notification_Status (mention bob stF) = Some st /\
                         Account_Bot (Status_Account st) = true).
  { exists stF. split; reflexivity. }
  split; [reflexivity|]. split; [exact H|].
  apply mention_ignored; [reflexivity|].
  right. right. exact H.
Defined.

Lemma backend_error_replies_witness :
  plainError (str "exit status 1") = true /\
  exists t,
    posted (callsOf (handleMention collaborators gemini 5 (mention bob stC)
                       backendDown)) = [t] /\
    Toot_Status t =
      str "@" ++ str "bob" ++ str " TL;DR: " ++ apology ++ str "exit status 1".
Proof.
  split; [reflexivity|].
  destruct (proj1 (backend_error_replies collaborators gemini)
              5 (mention bob stC) stC backendDown
              (strings_Join (List.map (line collaborators) [stA; stB; stC])
                 (nl ++ nl))
              backendDown
              (callsOf (fetchThread collaborators 5 (Some stC) backendDown))
              (str "exit status 1") backendDown
              (callsOf (summarizeThread collaborators gemini
                 (strings_Join (List.map (line collaborators) [stA; stB; stC])
                    (nl ++ nl)) false backendDown))
              eq_refl eq_refl eq_refl eq_refl eq_refl)
    as (t & Hposted & _ & Hbody).
  exists t. split; [exact Hposted|]. apply Hbody. reflexivity.
Defined.

Lemma apology_loses_error_text :
  summarizeThread collaborators gemini (str "alice: hi") false quotaExceeded
    = Done (Err (str "quota exceeded.  Retry later")) quotaExceeded
        (callsOf (summarizeThread collaborators gemini (str "alice: hi") false
                    quotaExceeded)) /\
  exists t,
    posted (callsOf (handleMention collaborators gemini 5 (mention bob stC)
                       quotaExceeded)) = [t] /\
    strings_Contains (Toot_Status t) (str "quota exceeded.  Retry later")
      = false.
Proof.
  split; [reflexivity|].
  eexists. split; [vm_compute; reflexivity|]. vm_compute. reflexivity.
Qed.

Lemma cleanResponse_idempotent_on_clean_output_witness :
  strings_Contains (asciiLower (cleanResponse (str "TL;DR: It went well.  Really. ")))
    (str "tl;dr") = false /\
  cleanResponse (cleanResponse (str "TL;DR: It went well.  Really. "))
  = cleanResponse (str "TL;DR: It went well.  Really. ").
Proof.
  split; [reflexivity|].
  apply cleanResponse_idempotent_on_clean_output; reflexivity.
Defined.


Example joinFree_examples :
  joinFree None false 0 (str "TL;DR: Results are in") = true /\
  joinFree None false 0 (str "tl;dr: long story short, it works") = true /\
  joinFree None false 0 (str "bottle of tl;dr - dry") = true /\
  joinFree None false 0 (str "A tTL;DR: l;dr B") = false /\
  joinFree None false 0 (str "ttl;drtl;drl;dr") = false /\
  joinFree None false 0 (str "t tl;dr x TL;DR: really") = true.
Proof. repeat split; reflexivity. Qed.

(** ** Further properties of the handlers, the sanitizer and the word count *)

Section Extras.
Variable World : Type.
Variable E : Collaborators World.
Variable config : Config.

(** X1: a follow notification from an account that is not automated is
    answered by exactly one [AccountFollow] call, for the follower, and by
    no other call to the server; one from an automated account by no call
    at all. *)
Theorem follow_back_once fuel n (w : World) :
  Notification_Type n = str "follow" ->
  (Account_Bot (Notification_Account n) = false ->
   followed (callsOf (handleEvent E config fuel (NotificationEvent n) w))
     = [Account_ID (Notification_Account n)] /\
   posted (callsOf (handleEvent E config fuel (NotificationEvent n) w)) = [] /\
   fetched (callsOf (handleEvent E config fuel (NotificationEvent n) w)) = [] /\
   generations (callsOf (handleEvent E config fuel (NotificationEvent n) w)) = []) /\
  (Account_Bot (Notification_Account n) = true ->
   handleEvent E config fuel (NotificationEvent n) w = Done tt w []).
Proof.
  intros Htype. cbn [handleEvent]. rewrite Htype.
  change (string_eqb (str "follow") (str "mention")) with false.
  change (string_eqb (str "follow") (str "follow")) with true. cbv iota.
  split; intros Hbot; rewrite Hbot; [|reflexivity].
  unfold handleFollowBack, bind, call.
  destruct (AccountFollow E (Account_ID (Notification_Account n)) w) as [[u|err] w'];
    repeat split; reflexivity.
Qed.

(** X2: a mention by an account that is not automated and not the bot
    itself, in a notification without a status, ends the handler with a
    run-time panic before any call is made, and the event loop with it:
    the events behind it are not handled. *)
Theorem mention_without_status_panics fuel n rest (w : World) :
  Notification_Type n = str "mention" ->
  Account_Bot (Notification_Account n) = false ->
  string_eqb (Account_Acct (Notification_Account n))
    (os_Getenv E (str "MASTODON_USERNAME") w) = false ->
  Notification_Status n = None ->
  eventLoop E config fuel (NotificationEvent n :: rest) w = Panic w [].
Proof.
  intros Htype Hbot Hself Hst. cbn [eventLoop]. unfold bind.
  cbn [handleEvent]. rewrite Htype.
  change (string_eqb (str "mention") (str "mention")) with true. cbv iota.
  rewrite Hbot. rewrite handleMention_nil by assumption. reflexivity.
Qed.

Lemma generations_app a b : generations (a ++ b) = generations a ++ generations b.
Proof.
  induction a as [|c a IH]; [reflexivity|].
  destruct c; simpl; rewrite IH; reflexivity.
Qed.

Lemma generations_parseLog content : generations (parseLog E content) = [].
Proof. unfold parseLog. destruct (html_Parse E content); reflexivity. Qed.

(** X3: a new post by an automated account, and one that is not long (at
    most 200 words, or with "tl;dr" in it already), cause no generation
    request, no fetch and no reply. *)
Theorem short_post_left_alone fuel st (w : World) :
  Account_Bot (Status_Account st) = true \/
  isLongPost E (plainText E (Status_Content st)) = false ->
  generations (callsOf (handleEvent E config fuel (UpdateEvent st) w)) = [] /\
  posted (callsOf (handleEvent E config fuel (UpdateEvent st) w)) = [] /\
  fetched (callsOf (handleEvent E config fuel (UpdateEvent st) w)) = [].
Proof.
  intros Hcases. cbn [handleEvent].
  destruct (Account_Bot (Status_Account st)); [repeat split; reflexivity|].
  destruct Hcases as [Hbot|Hshort]; [discriminate Hbot|].
  rewrite checkForLongPost_short by exact Hshort. cbn [callsOf].
  unfold parseLog. destruct (html_Parse E (Status_Content st)); repeat split; reflexivity.
Qed.
End Extras.

Section Extras.
Variable World : Type.
Variable E : Collaborators World.
Variable config : Config.

Lemma string_eqb_neq a b : a <> b -> string_eqb a b = false.
Proof.
  intros H. destruct (string_eqb a b) eqn:Heq; [|reflexivity].
  apply string_eqb_eq in Heq. contradiction.
Qed.

(** X4: [summarizeThread] asks the configured backend exactly once, with
    the instruction of the mode, a newline and the text; for a provider
    that is neither "gemini" nor "ollama" it asks nobody and returns the
    error "unsupported LLM provider: <name>". *)
Theorem summarizeThread_dispatch (thread : gostring) (isSinglePost : bool)
    (w : World) :
  let prompt :=
    (if isSinglePost then postInstruction else threadInstruction)
    ++ nl ++ thread in
  (LLM_Provider config = str "gemini" ->
   summarizeThread E config thread isSinglePost w =
   let (r, w') := GenerateContent E prompt w in
   Done (match r with
         | Ok resp => Ok (getResponse resp)
         | Err err => Err err
         end) w' [CallGenerateContent prompt]) /\
  (LLM_Provider config = str "ollama" ->
   summarizeThread E config thread isSinglePost w =
   let (r, w') := ollama_run E (LLM_OllamaModel config) prompt w in
   Done r w' [CallOllamaRun (LLM_OllamaModel config) prompt]) /\
  (LLM_Provider config <> str "gemini" ->
   LLM_Provider config <> str "ollama" ->
   summarizeThread E config thread isSinglePost w =
   Done (Err (str "unsupported LLM provider: " ++ LLM_Provider config)) w []).
Proof.
  intros prompt.
  assert (Hprompt :
    (if negb isSinglePost
     then fmt_Sprintf
            (str "Write a TL;DR summary for this conversation. Reply with just the TL;DR and nothing else:"
               ++ nl ++ str "%s") [thread]
     else fmt_Sprintf
            (str "Write a TL;DR summary for this post. Refer to the Original poster as OP. Reply with just the TL;DR and nothing else:"
               ++ nl ++ str "%s") [thread]) = prompt).
  { subst prompt. destruct isSinglePost; cbn; rewrite app_nil_r; reflexivity. }
  unfold summarizeThread. rewrite Hprompt. clearbody prompt.
  repeat split.
  - intros ->. cbn [string_eqb]. change (string_eqb (str "gemini") (str "gemini")) with true.
    cbv iota. unfold generateWithGemini, bind, call.
    destruct (GenerateContent E prompt w) as [[resp|err] w']; reflexivity.
  - intros ->. change (string_eqb (str "ollama") (str "gemini")) with false.
    change (string_eqb (str "ollama") (str "ollama")) with true.
    cbv iota. unfold generateWithOllama, bind, call.
    destruct (ollama_run E (LLM_OllamaModel config) prompt w) as [[out|err] w']; reflexivity.
  - intros H1 H2. rewrite (string_eqb_neq H1), (string_eqb_neq H2).
    unfold ret. f_equal. cbn. rewrite app_nil_r. reflexivity.
Qed.

Lemma fold_parts parts : forall acc,
  fold_left (fun response part => response ++ fmt_Sprintf (str "%v") [part])
    parts acc = acc ++ List.concat parts.
Proof.
  induction parts as [|p parts IH]; intros acc; cbn [fold_left List.concat].
  - rewrite app_nil_r. reflexivity.
  - rewrite IH. cbn. rewrite app_nil_r, <- app_assoc. reflexivity.
Qed.

(** X5: [getResponse] is the concatenation of all parts of all candidates,
    in their order; a candidate without content adds nothing. *)
Theorem getResponse_concat (resp : GenerateContentResponse) :
  getResponse resp = List.concat (flat_map partsOf resp).
Proof.
  unfold getResponse.
  enough (H : forall acc,
    fold_left
      (fun response cand =>
         match Candidate_Content cand with
         | Some parts =>
             fold_left
               (fun response part => response ++ fmt_Sprintf (str "%v") [part])
               parts response
         | None => response
         end) resp acc = acc ++ List.concat (flat_map partsOf resp))
    by apply (H []).
  induction resp as [|cand resp IH]; intros acc; cbn [fold_left flat_map].
  - rewrite app_nil_r. reflexivity.
  - rewrite IH. unfold partsOf at 2.
    destruct (Candidate_Content cand) as [parts|].
    + rewrite fold_parts, concat_app, app_assoc. reflexivity.
    + reflexivity.
Qed.

(** X6: [extractText] is the concatenation of the data of the text nodes
    in document order. *)
Theorem extractText_textNodes : forall n : Node,
  extractText n = List.concat (textNodes n).
Proof.
  fix IH 1. intros [type data children].
  assert (Hch :
    (fix siblings (cs : list Node) : gostring :=
       match cs with
       | [] => []
       | c :: cs' => extractText c ++ siblings cs'
       end) children =
    List.concat
      ((fix siblings (cs : list Node) : list gostring :=
          match cs with
          | [] => []
          | c :: cs' => textNodes c ++ siblings cs'
          end) children)).
  { induction children as [|c cs IHcs]; [reflexivity|].
    rewrite concat_app, <- IHcs, <- IH. reflexivity. }
  destruct type; cbn [extractText textNodes]; try exact Hch.
  cbn. rewrite app_nil_r. reflexivity.
Qed.
End Extras.

Section Extras.
Variable World : Type.
Variable E : Collaborators World.
Variable config : Config.

Lemma reply_body acct body :
  fmt_Sprintf (str "@%s TL;DR: %s") [acct; body] =
  str "@" ++ acct ++ str " TL;DR: " ++ body.
Proof. cbn. rewrite app_nil_r. reflexivity. Qed.

(** X7: a reply answers the status that caused it and addresses the
    mentioning account (for a mention) or the author (for a long post):
    its body is "@<handle> TL;DR: " followed by a text without whitespace
    at either end. *)
Theorem reply_addressing :
  (forall fuel n st (w : World) t,
     Notification_Status n = Some st ->
     In t (posted (callsOf (handleMention E config fuel n w))) ->
     Toot_InReplyToID t = Status_ID st /\
     exists body,
       Toot_Status t =
         str "@" ++ Account_Acct (Notification_Account n) ++ str " TL;DR: " ++ body /\
       strings_TrimSpace body = body) /\
  (forall st (w : World) t,
     In t (posted (callsOf (checkForLongPost E config st w))) ->
     Toot_InReplyToID t = Status_ID st /\
     exists body,
       Toot_Status t =
         str "@" ++ Account_Acct (Status_Account st) ++ str " TL;DR: " ++ body /\
       strings_TrimSpace body = body).
Proof.
  split.
  - intros fuel n st w t Hst Ht.
    destruct (handleMention_posted E config fuel n w) as [Hp | (st' & r & Hst' & Hp)];
      rewrite Hp in Ht; [destruct Ht|].
    apply in_posted_one in Ht. subst t.
    assert (st' = st) by congruence. subst st'.
    split; [reflexivity|].
    exists (cleanResponse (summaryOf r)). split.
    + apply reply_body.
    + apply cleanResponse_trimmed.
  - intros st w t Ht.
    destruct (checkForLongPost_posted E config st w)
      as [Hp | (summary & w1 & c1 & _ & _ & Hp)];
      rewrite Hp in Ht; [destruct Ht|].
    apply in_posted_one in Ht. subst t.
    split; [reflexivity|].
    exists (cleanResponse summary). split.
    + apply reply_body.
    + apply cleanResponse_trimmed.
Qed.

(** X8: the reply to a mention is "unlisted" when the mentioned status is
    "public", has the visibility of the status otherwise, and so is never
    "public". *)
Theorem mention_reply_visibility fuel n st (w : World) t :
  Notification_Status n = Some st ->
  In t (posted (callsOf (handleMention E config fuel n w))) ->
  (Status_Visibility st = str "public" -> Toot_Visibility t = str "unlisted") /\
  (Status_Visibility st <> str "public" ->
   Toot_Visibility t = Status_Visibility st) /\
  Toot_Visibility t <> str "public".
Proof.
  intros Hst Ht.
  destruct (handleMention_posted E config fuel n w) as [Hp | (st' & r & Hst' & Hp)];
    rewrite Hp in Ht; [destruct Ht|].
  apply in_posted_one in Ht. subst t.
  assert (st' = st) by congruence. subst st'.
  cbn [mentionToot Toot_Visibility]. unfold replyVisibility.
  destruct (string_eqb (Status_Visibility st) (str "public")) eqn:Hv.
  - apply string_eqb_eq in Hv. repeat split.
    + intros Hne. contradiction.
    + discriminate.
  - assert (Hne : Status_Visibility st <> str "public").
    { intros Heq. rewrite Heq in Hv. discriminate Hv. }
    repeat split; [intros Heq; contradiction | exact Hne].
Qed.

Lemma posted_after {A} calls (o : Outcome World A) :
  List.length (posted (callsOf (after calls o)))
  <= List.length (posted calls) + List.length (posted (callsOf o)).
Proof.
  destruct o; cbn [after callsOf]; rewrite ?posted_app, ?length_app; simpl; lia.
Qed.

Lemma handleEvent_posts_once fuel event (w : World) :
  List.length (posted (callsOf (handleEvent E config fuel event w))) <= 1.
Proof.
  destruct event as [n|st|]; cbn [handleEvent].
  - destruct (string_eqb (Notification_Type n) (str "mention")).
    + destruct (Account_Bot (Notification_Account n)); [simpl; lia|].
      destruct (handleMention_posted E config fuel n w) as [-> | (st & r & _ & ->)];
        simpl; lia.
    + destruct (string_eqb (Notification_Type n) (str "follow")); [|simpl; lia].
      destruct (Account_Bot (Notification_Account n)); [simpl; lia|].
      unfold handleFollowBack, bind, call.
      destruct (AccountFollow E (Account_ID (Notification_Account n)) w) as [[u|err] w'];
        simpl; lia.
  - destruct (Account_Bot (Status_Account st)); [simpl; lia|].
    destruct (checkForLongPost_posted E config st w)
      as [-> | (summary & w1 & c1 & _ & _ & ->)]; simpl; lia.
  - simpl. lia.
Qed.

(** X9: no event is answered by more than one reply, and the event loop
    never posts more replies than it has handled events. *)
Theorem replies_bounded_by_events fuel (events : list Event) :
  forall w : World,
    List.length (posted (callsOf (eventLoop E config fuel events w)))
    <= List.length events.
Proof.
  induction events as [|event rest IH]; intros w; cbn [eventLoop List.length].
  - simpl. lia.
  - unfold bind.
    pose proof (handleEvent_posts_once fuel event w) as H1.
    destruct (handleEvent E config fuel event w) as [[] w' calls|w' calls|];
      cbn [callsOf] in *.
    + pose proof (posted_after calls (eventLoop E config fuel rest w')) as H2.
      specialize (IH w'). lia.
    + lia.
    + simpl. lia.
Qed.

(** X10: there is no guard against a cycle of parents: when the parent of
    a status is fetched as that status again and again, the walk of
    [fetchThread] does not end, whatever number of turns it is given. *)
Theorem fetchThread_cycle_diverges (Inv : World -> Prop) st v :
  Status_InReplyToID st = Some v ->
  (forall w, Inv w ->
     exists w', GetStatus E (parentID v) w = (Ok st, w') /\ Inv w') ->
  forall fuel w, Inv w -> fetchThread E fuel (Some st) w = OutOfFuel.
Proof.
  intros Hv Hget fuel w Hw. rewrite fetchThread_run.
  enough (H : forall thread, fetchThread_loop E fuel (Some st) thread w = OutOfFuel)
    by (rewrite H; reflexivity).
  revert w Hw. induction fuel as [|fuel IH]; intros w Hw thread.
  - reflexivity.
  - rewrite fetchThread_loop_step, Hv.
    destruct (Hget w Hw) as (w' & -> & Hw').
    rewrite (IH w' Hw'). reflexivity.
Qed.

(** X11: a summary that the sanitizer empties is posted all the same: the
    reply to the mention is then "@<mentioner> TL;DR: " and nothing
    more. *)
Theorem empty_summary_still_posted fuel n st (w : World) thread w1 c1
    summary w2 c2 :
  string_eqb (Account_Acct (Notification_Account n))
    (os_Getenv E (str "MASTODON_USERNAME") w) = false ->
  Notification_Status n = Some st ->
  Account_Bot (Status_Account st) = false ->
  fetchThread E fuel (Some st) w = Done (thread, None) w1 c1 ->
  summarizeThread E config thread false w1 = Done (Ok summary) w2 c2 ->
  cleanResponse summary = [] ->
  exists t,
    posted (callsOf (handleMention E config fuel n w)) = [t] /\
    Toot_Status t =
      str "@" ++ Account_Acct (Notification_Account n) ++ str " TL;DR: ".
Proof.
  intros Hself Hst Hbot Hfetch Hsum Hempty.
  rewrite fetchThread_run in Hfetch.
  pose proof (fetchThread_loop_calls E fuel (Some st) [] w) as Hc1.
  destruct (fetchThread_loop E fuel (Some st) [] w) as [lines w1' c1'| |] eqn:Hwalk;
    try discriminate Hfetch.
  injection Hfetch as <- <- <-.
  destruct (summarizeThread_run E config (strings_Join lines (nl ++ nl)) false w1')
    as (r & w2' & c2' & Hsum' & Hc2).
  pose proof (eq_trans (eq_sym Hsum) Hsum') as Heq.
  injection Heq as <- <- <-.
  destruct (PostStatus E (mentionToot n st (summaryOf (Ok summary))) w2)
    as [pr w3] eqn:Hpost.
  exists (mentionToot n st (summaryOf (Ok summary))).
  erewrite handleMention_run by eassumption.
  cbn [callsOf]. rewrite !posted_app.
  rewrite (posted_fetchCalls Hc1), (posted_generationCalls Hc2).
  split; [destruct pr; reflexivity|].
  cbn [mentionToot Toot_Status summaryOf]. rewrite reply_body, Hempty.
  reflexivity.
Qed.
End Extras.

(** X12: what [cleanResponse] returns neither begins nor ends with
    whitespace. *)
Theorem cleanResponse_no_outer_space (x : gostring) :
  startsWith unicode_IsSpace (cleanResponse x) = false /\
  startsWith unicode_IsSpace (rev (cleanResponse x)) = false.
Proof.
  unfold cleanResponse.
  match goal with |- context [strings_TrimSpace ?s] =>
    destruct (strings_TrimSpace_clean s) as [H1 H2];
    destruct (strings_TrimSpace s) as [|c t]
  end.
  - split; reflexivity.
  - split; [exact H1|].
    destruct (rev (c :: t)); [reflexivity|exact H2].
Qed.

Lemma rewriteAll_length matcher repl :
  (forall prev s n, matcher prev s = Some n ->
     List.length repl <= Nat.min n (List.length s)) ->
  forall s prev k,
    List.length (rewriteAll matcher repl prev k s)
    <= List.length s - Nat.min k (List.length s).
Proof.
  intros Hm. induction s as [|c s' IH]; intros prev k.
  - destruct k; cbn [rewriteAll]; [|simpl; lia].
    destruct (matcher prev []) as [[|n]|] eqn:Hmatch; try (simpl; lia);
      apply Hm in Hmatch; rewrite app_nil_r; simpl in *; lia.
  - destruct k as [|k]; cbn [rewriteAll].
    + destruct (matcher prev (c :: s')) as [[|n]|] eqn:Hmatch.
      * apply Hm in Hmatch. rewrite length_app. cbn [List.length] in *.
        specialize (IH (Some c) 0). lia.
      * apply Hm in Hmatch. rewrite length_app. cbn [List.length] in *.
        specialize (IH (Some c) n). lia.
      * cbn [List.length]. specialize (IH (Some c) 0). lia.
    + cbn [List.length]. specialize (IH (Some c) k). lia.
Qed.

Lemma hasPrefix_length old : forall s,
  strings_HasPrefix s old = true -> List.length old <= List.length s.
Proof.
  induction old as [|p old IH]; intros s H; [simpl; lia|].
  destruct s as [|c s]; [discriminate|].
  cbn [strings_HasPrefix] in H. apply andb_true_iff in H. destruct H as [_ H].
  apply IH in H. simpl. lia.
Qed.

Lemma strings_ReplaceAll_length s old new :
  List.length new <= List.length old ->
  List.length (strings_ReplaceAll s old new) <= List.length s.
Proof.
  intros Hlen. unfold strings_ReplaceAll.
  etransitivity; [apply rewriteAll_length|lia].
  intros prev t n Hm.
  destruct (strings_HasPrefix t old) eqn:Hp; [|discriminate].
  injection Hm as <-. apply hasPrefix_length in Hp. lia.
Qed.

Lemma ReplaceAllString_length re s :
  List.length (ReplaceAllString re s []) <= List.length s.
Proof.
  unfold ReplaceAllString.
  etransitivity; [apply rewriteAll_length|lia].
  intros. simpl. lia.
Qed.

Lemma trimLeft_length s : List.length (trimLeft s) <= List.length s.
Proof.
  destruct (trimLeft_suffix s) as [p Hp].
  rewrite Hp at 2. rewrite length_app. lia.
Qed.

Lemma strings_TrimSpace_length s :
  List.length (strings_TrimSpace s) <= List.length s.
Proof.
  unfold strings_TrimSpace. rewrite length_rev.
  etransitivity; [apply trimLeft_length|].
  rewrite length_rev. apply trimLeft_length.
Qed.

(** X13: the sanitizer never makes a text longer. *)
Theorem cleanResponse_not_longer (x : gostring) :
  List.length (cleanResponse x) <= List.length x.
Proof.
  unfold cleanResponse. change (str "") with (@nil rune).
  etransitivity; [apply strings_TrimSpace_length|].
  etransitivity; [apply strings_ReplaceAll_length; simpl; lia|].
  etransitivity; [apply strings_ReplaceAll_length; simpl; lia|].
  etransitivity; [apply ReplaceAllString_length|].
  apply ReplaceAllString_length.
Qed.

Lemma removeLabels_prev s : forall prev prev' k,
  rewriteAll (matchAt tldrRegex) [] prev k s
  = rewriteAll (matchAt tldrRegex) [] prev' k s.
Proof.
  induction s as [|c s' IH]; intros prev prev' k.
  - destruct k; cbn [rewriteAll]; rewrite ?matchAt_tldrRegex; reflexivity.
  - destruct k; cbn [rewriteAll]; [|reflexivity].
    rewrite !matchAt_tldrRegex. reflexivity.
Qed.

Lemma rewriteAll_skip matcher repl : forall k s prev,
  k <= List.length s ->
  exists prev',
    rewriteAll matcher repl prev k s = rewriteAll matcher repl prev' 0 (skipn k s).
Proof.
  induction k as [|k IH]; intros s prev Hk.
  - exists prev. reflexivity.
  - destruct s as [|c s']; [simpl in Hk; lia|].
    cbn [rewriteAll skipn]. apply IH. simpl in Hk. lia.
Qed.

Lemma span_length p s : span p s <= List.length s.
Proof.
  induction s as [|c s IH]; simpl; [lia|].
  destruct (p c); simpl; lia.
Qed.

(** X14: a label in front of a summary is cut off together with the
    colons, hyphens and whitespace behind it: the result is that of the
    text behind them. *)
Theorem cleanResponse_strips_leading_label (label body : gostring) :
  labelAt label = true ->
  List.length label = 5 ->
  cleanResponse (label ++ body) = cleanResponse (dropWhile labelTail body).
Proof.
  intros Hl Hlen.
  assert (Hl' : labelAt (label ++ body) = true) by (apply labelAt_app; exact Hl).
  assert (Hskip : skipn 5 (label ++ body) = body).
  { rewrite <- Hlen. rewrite skipn_app, skipn_all, Nat.sub_diag. reflexivity. }
  unfold cleanResponse, ReplaceAllString. change (str "") with (@nil rune).
  assert (Hstage :
    rewriteAll (matchAt tldrRegex) [] None 0 (label ++ body)
    = rewriteAll (matchAt tldrRegex) [] None 0 (dropWhile labelTail body)).
  { destruct (label ++ body) as [|c s'] eqn:Hs; [discriminate Hl'|].
    cbn [rewriteAll]. rewrite matchAt_tldrRegex, Hl'. cbn [Nat.add app].
    rewrite Hskip.
    destruct (@rewriteAll_skip (matchAt tldrRegex) [] (4 + span labelTail body)
                s' (Some c)) as [prev' Hrw].
    { pose proof (span_length labelTail body) as Hsp.
      apply (f_equal (@List.length rune)) in Hs.
      assert (Hb : List.length body = List.length s' - 4).
      { rewrite <- Hskip, length_skipn. simpl. lia. }
      rewrite length_app, Hlen in Hs. simpl in Hs. lia. }
    change (rewriteAll (matchAt tldrRegex) [] (Some c)
              (4 + span labelTail body) s'
            = rewriteAll (matchAt tldrRegex) [] None 0 (dropWhile labelTail body)).
    rewrite Hrw.
    change (skipn (4 + span labelTail body) s')
      with (skipn (5 + span labelTail body) (c :: s')).
    rewrite skipn_add, Hskip, skipn_span.
    apply removeLabels_prev. }
  rewrite Hstage. reflexivity.
Qed.

Lemma cleanResponse_strips_leading_label_witness :
  labelAt (str "TL;DR") = true /\
  List.length (str "TL;DR") = 5 /\
  cleanResponse (str "TL;DR" ++ str ": It went well.") = str "It went well.".
Proof.
  split; [reflexivity|]. split; [reflexivity|].
  rewrite cleanResponse_strips_leading_label by reflexivity.
  reflexivity.
Defined.

Lemma runs_app_space a sp b :
  unicode_IsSpace sp = true -> runs (a ++ sp :: b) = runs a ++ runs b.
Proof.
  intros Hsp. induction a as [|c a IH]; cbn [app runs].
  - rewrite Hsp. reflexivity.
  - destruct (unicode_IsSpace c); [exact IH|].
    destruct a as [|d a'].
    + cbn [app startsWord runs]. rewrite Hsp. reflexivity.
    + change (startsWord ((d :: a') ++ sp :: b)) with (startsWord (d :: a')).
      destruct (startsWord (d :: a')) eqn:Hs.
      * rewrite IH. pose proof (runs_startsWord _ Hs) as Hne.
        destruct (runs (d :: a')); [congruence|reflexivity].
      * rewrite IH. reflexivity.
Qed.

Lemma runs_length s : List.length (runs s) <= List.length s.
Proof.
  induction s as [|c s IH]; cbn [runs List.length]; [lia|].
  destruct (unicode_IsSpace c); [lia|].
  destruct (startsWord s); [|cbn [List.length]; lia].
  destruct (runs s); cbn [List.length] in *; lia.
Qed.

(** X15: words are counted piece by piece: for two texts joined by a
    whitespace rune the count is the sum of their counts; it is never
    negative and never more than the length of the text; and a text of
    whitespace only has no words. *)
Theorem countWords_compositional (a b : gostring) (sp : rune) :
  (Z.of_nat (List.length (a ++ sp :: b)) < 2 ^ 63)%Z ->
  unicode_IsSpace sp = true ->
  countWords (a ++ sp :: b) = (countWords a + countWords b)%Z /\
  (0 <= countWords a <= Z.of_nat (List.length a))%Z /\
  (Forall (fun c => unicode_IsSpace c = true) a -> countWords a = 0%Z).
Proof.
  intros Hlen Hsp.
  pose proof Hlen as Hsum. rewrite length_app in Hsum. cbn [List.length] in Hsum.
  rewrite (countWords_runs _ Hlen).
  rewrite (countWords_runs a), (countWords_runs b) by lia.
  rewrite (@runs_app_space a sp b Hsp), length_app.
  split; [lia|]. split.
  - pose proof (runs_length a). lia.
  - intros Hall. rewrite <- (app_nil_r a), (@runs_spaces a [] Hall). reflexivity.
Qed.

Lemma countWords_compositional_witness :
  (Z.of_nat (List.length (str "two words" ++ chr " " :: str "and three more")) < 2 ^ 63)%Z /\
  unicode_IsSpace (chr " ") = true /\
  countWords (str "two words" ++ chr " " :: str "and three more") = 5%Z.
Proof.
  split; [vm_compute; reflexivity|]. split; [reflexivity|].
  rewrite (proj1 (@countWords_compositional (str "two words")
                    (str "and three more") (chr " ")
                    ltac:(vm_compute; reflexivity) eq_refl)).
  reflexivity.
Defined.

Lemma star_greedy p (k : cont) s : forall prev n m,
  (forall prev', k prev' (dropWhile p s) (n + span p s) = Some m) ->
  star p prev s n k = Some m.
Proof.
  induction s as [|c s' IH]; intros prev n m Hk; cbn [star].
  - specialize (Hk prev). cbn [dropWhile span] in Hk.
    rewrite Nat.add_0_r in Hk. exact Hk.
  - cbn [dropWhile span] in Hk. destruct (p c).
    + rewrite (IH (Some c) (S n) m); [reflexivity|].
      intros prev'. rewrite <- (Hk prev'). f_equal. lia.
    + specialize (Hk prev). rewrite Nat.add_0_r in Hk. exact Hk.
Qed.

Lemma matchAt_headerRegex prev s :
  matchAt headerRegex prev s =
  if lineStart prev && startsWith isHash s then Some (headerLength s) else None.
Proof.
  unfold matchAt, headerRegex. cbn [run].
  assert (Hbody :
    match s with
    | [] => None
    | c :: s' =>
        if oneOf [chr "#"] c
        then star (oneOf [chr "#"]) (Some c) s' 1
               (fun prev' s'0 n' =>
                  star perlSpace prev' s'0 n'
                    (fun prev'0 s'1 n'0 =>
                       star anyButNewline prev'0 s'1 n'0
                         (fun prev'1 s'2 n'1 =>
                            match
                              match s'2 with
                              | [] => None
                              | c0 :: s'3 =>
                                  if oneOf [newline] c0 then Some (S n'1) else None
                              end
                            with
                            | Some m => Some m
                            | None => Some n'1
                            end)))
        else None
    end = if startsWith isHash s then Some (headerLength s) else None).
  { destruct s as [|c s']; [reflexivity|].
    cbn [startsWith]. fold isHash. destruct (isHash c) eqn:Hc; [|reflexivity].
    unfold headerLength. cbn [dropWhile span]. rewrite Hc.
    apply star_greedy. intros p1.
    apply star_greedy. intros p2.
    apply star_greedy. intros p3.
    destruct (dropWhile anyButNewline (dropWhile perlSpace (dropWhile isHash s')))
      as [|d s3]; cbn [startsWith].
    - f_equal. lia.
    - unfold isNewline, oneOf, existsb. rewrite orb_false_r.
      destruct (rune_eqb d newline); f_equal; lia. }
  destruct prev as [c|]; cbn [lineStart andb].
  - destruct (rune_eqb c newline); [exact Hbody|reflexivity].
  - exact Hbody.
Qed.

Lemma resumes_span p s b :
  (forall prev', resumesAtLine prev' b (dropWhile p s)) ->
  forall prev, resumesAtLine prev (span p s + b) s.
Proof.
  induction s as [|c s' IH]; intros H prev; cbn [span dropWhile] in *.
  - apply H.
  - destruct (p c).
    + cbn [Nat.add resumesAtLine]. apply IH. exact H.
    + apply H.
Qed.

(** A match of the header pattern ends at the end of the text or behind a
    newline. *)
Lemma headerLength_resumes prev s : resumesAtLine prev (headerLength s) s.
Proof.
  unfold headerLength.
  apply resumes_span. intros p1.
  apply resumes_span. intros p2.
  apply resumes_span. intros p3.
  assert (Hhead : forall t, startsWith anyButNewline (dropWhile anyButNewline t) = false).
  { induction t as [|c t IHt]; [reflexivity|]. cbn [dropWhile].
    destruct (anyButNewline c) eqn:Hc; [exact IHt|]. cbn [startsWith]. exact Hc. }
  specialize (Hhead (dropWhile perlSpace (dropWhile isHash s))).
  destruct (dropWhile anyButNewline (dropWhile perlSpace (dropWhile isHash s)))
    as [|d s3]; [exact I|].
  cbn [startsWith] in *. unfold anyButNewline in Hhead.
  apply negb_false_iff in Hhead. unfold isNewline. rewrite Hhead.
  cbn [resumesAtLine]. destruct s3; [exact I|]. cbn [lineStart]. exact Hhead.
Qed.

Lemma headerLength_pos c s : isHash c = true -> exists n, headerLength (c :: s) = S n.
Proof.
  intros Hc. unfold headerLength. cbn [span]. rewrite Hc. eexists. reflexivity.
Qed.

(** Behind the header stage no line begins with [#]. *)
Lemma removeHeaders_lineClean s : forall prev k b,
  (k = 0 -> b = true -> lineStart prev = true) ->
  (k <> 0 -> resumesAtLine prev k s) ->
  lineClean b (rewriteAll (matchAt headerRegex) [] prev k s) = true.
Proof.
  induction s as [|c s' IH]; intros prev k b H0 Hk.
  - destruct k; cbn [rewriteAll]; [|reflexivity].
    rewrite matchAt_headerRegex. cbn [startsWith]. rewrite andb_false_r. reflexivity.
  - assert (Hskip : forall n prev0,
              resumesAtLine prev0 (S n) (c :: s') ->
              lineClean b (rewriteAll (matchAt headerRegex) [] (Some c) n s') = true).
    { intros n prev0 Hres. cbn [resumesAtLine] in Hres.
      destruct s' as [|d s''].
      - destruct n; cbn [rewriteAll]; [|reflexivity].
        rewrite matchAt_headerRegex. cbn [startsWith]. rewrite andb_false_r. reflexivity.
      - apply IH.
        + intros -> _. exact Hres.
        + intros _. exact Hres. }
    destruct k as [|k]; cbn [rewriteAll].
    + rewrite matchAt_headerRegex. cbn [startsWith].
      destruct (lineStart prev && isHash c) eqn:Hm.
      * apply andb_true_iff in Hm. destruct Hm as [_ Hc].
        destruct (@headerLength_pos c s' Hc) as [n Hn].
        pose proof (headerLength_resumes prev (c :: s')) as Hres.
        rewrite Hn in *. cbn [app]. exact (@Hskip n prev Hres).
      * cbn [lineClean]. apply andb_true_iff. split.
        -- destruct b; [|reflexivity]. rewrite (H0 eq_refl eq_refl) in Hm.
           cbn [andb] in *. rewrite Hm. reflexivity.
        -- apply IH; [|congruence]. intros _ Hnl. exact Hnl.
    + apply (@Hskip k prev). apply Hk. discriminate.
Qed.

Lemma lineClean_weaken b s : lineClean b s = true -> lineClean false s = true.
Proof.
  destruct s as [|c s]; [reflexivity|]. cbn [lineClean andb negb].
  intros H. apply andb_true_iff in H. tauto.
Qed.

Lemma lineClean_suffix p : forall b q,
  lineClean b (p ++ q) = true -> lineClean false q = true.
Proof.
  induction p as [|c p IH]; intros b q H.
  - exact (@lineClean_weaken b q H).
  - cbn [app lineClean] in H. apply andb_true_iff in H. destruct H as [_ H].
    exact (IH _ _ H).
Qed.

Lemma lineClean_prefix p : forall b q,
  lineClean b (p ++ q) = true -> lineClean b p = true.
Proof.
  induction p as [|c p IH]; intros b q H; [reflexivity|].
  cbn [app lineClean] in *. apply andb_true_iff in H. destruct H as [H1 H2].
  rewrite H1. exact (IH _ _ H2).
Qed.

Lemma lineClean_new new : forall b X,
  new <> [] ->
  Forall (fun r => isHash r = false /\ isNewline r = false) new ->
  lineClean false X = true ->
  lineClean b (new ++ X) = true.
Proof.
  induction new as [|r new IH]; intros b X Hne Hall HX; [congruence|].
  inversion Hall as [|? ? [Hh Hn] Hall']; subst.
  cbn [app lineClean]. rewrite Hh, andb_false_r. cbn [negb andb]. rewrite Hn.
  destruct new as [|r' new']; [exact HX|].
  apply IH; [discriminate|exact Hall'|exact HX].
Qed.

Lemma strings_ReplaceAll_lineClean old new :
  old <> [] -> new <> [] ->
  Forall (fun r => isHash r = false /\ isNewline r = false) new ->
  forall s prev k bin b,
    lineClean bin s = true ->
    (k = 0 -> b = true -> bin = true) ->
    (k <> 0 -> b = false) ->
    lineClean b
      (rewriteAll
         (fun _ t => if strings_HasPrefix t old then Some (List.length old) else None)
         new prev k s) = true.
Proof.
  intros Hold Hnew Hall.
  assert (Hlen : exists n, List.length old = S n).
  { destruct old; [congruence|]. simpl. eauto. }
  destruct Hlen as [n Hn].
  assert (Hempty : strings_HasPrefix [] old = false).
  { destruct old; [congruence|reflexivity]. }
  set (M := fun (_ : option rune) (t : gostring) =>
              if strings_HasPrefix t old then Some (List.length old) else None).
  induction s as [|c s' IH]; intros prev k bin b Hin H0 Hk.
  - destruct k; cbn [rewriteAll]; [|reflexivity].
    unfold M at 1. rewrite Hempty. reflexivity.
  - cbn [lineClean] in Hin. apply andb_true_iff in Hin. destruct Hin as [Hc Hin].
    destruct k as [|k]; cbn [rewriteAll].
    + unfold M at 1. destruct (strings_HasPrefix (c :: s') old).
      * rewrite Hn. apply lineClean_new; [exact Hnew|exact Hall|].
        apply (IH (Some c) n (isNewline c) false Hin); [discriminate|reflexivity].
      * cbn [lineClean]. apply andb_true_iff. split.
        -- destruct b; [|reflexivity]. rewrite (H0 eq_refl eq_refl) in Hc. exact Hc.
        -- apply (IH (Some c) 0 (isNewline c) (isNewline c) Hin); [auto|congruence].
    + apply (IH (Some c) k (isNewline c) b Hin).
      * intros _ Hb. rewrite Hk in Hb by discriminate. discriminate Hb.
      * intros _. apply Hk. discriminate.
Qed.

Lemma lineClean_contains s : forall b,
  lineClean b s =
  negb ((b && startsWith isHash s) || strings_Contains s (nl ++ str "#")).
Proof.
  induction s as [|c s' IH]; intros b.
  - cbn. rewrite andb_false_r. reflexivity.
  - cbn [lineClean startsWith strings_Contains]. rewrite IH.
    assert (Hp : strings_HasPrefix (c :: s') (nl ++ str "#")
                 = isNewline c && startsWith isHash s').
    { change (nl ++ str "#") with [newline; chr "#"].
      cbn [strings_HasPrefix]. unfold isNewline.
      destruct s' as [|d s'']; cbn [startsWith]; [reflexivity|].
      unfold isHash, oneOf, existsb. rewrite andb_true_r, orb_false_r. reflexivity. }
    rewrite Hp.
    destruct b, (isHash c), (isNewline c), (startsWith isHash s'),
      (strings_Contains s' (nl ++ str "#")); reflexivity.
Qed.

(** X16: in what [cleanResponse] returns no line behind the first begins
    with [#]: a newline is never followed by [#]. *)
Theorem cleanResponse_no_header_line (x : gostring) :
  strings_Contains (cleanResponse x) (nl ++ str "#") = false.
Proof.
  assert (H : lineClean false (cleanResponse x) = true).
  { unfold cleanResponse, ReplaceAllString, strings_ReplaceAll, strings_TrimSpace.
    change (str "") with (@nil rune).
    match goal with |- lineClean false (rev (trimLeft (rev (trimLeft ?s)))) = true =>
      assert (Hs : lineClean false s = true)
    end.
    { assert (Hcomma : Forall (fun r => isHash r = false /\ isNewline r = false)
                         (str ", ")) by (repeat constructor).
      assert (Hdot : Forall (fun r => isHash r = false /\ isNewline r = false)
                       (str ". ")) by (repeat constructor).
      apply (@strings_ReplaceAll_lineClean (str ",  ") (str ", ")
               ltac:(discriminate) ltac:(discriminate) Hcomma _ None 0 false false);
        [|auto|congruence].
      apply (@strings_ReplaceAll_lineClean (str ".  ") (str ". ")
               ltac:(discriminate) ltac:(discriminate) Hdot _ None 0 false false);
        [|auto|congruence].
      apply (@lineClean_weaken true).
      apply removeHeaders_lineClean; [reflexivity|congruence]. }
    match goal with |- lineClean false (rev (trimLeft (rev (trimLeft ?s)))) = true =>
      destruct (trimLeft_suffix s) as [p Hp];
      destruct (trimLeft_suffix (rev (trimLeft s))) as [q Hq]
    end.
    rewrite Hp in Hs. apply lineClean_suffix in Hs.
    apply (f_equal (@rev rune)) in Hq. rewrite rev_involutive, rev_app_distr in Hq.
    rewrite Hq in Hs. exact (lineClean_prefix _ _ _ Hs). }
  rewrite lineClean_contains in H. apply negb_true_iff in H. exact H.
Qed.

(** X17: the label pattern matches at a position exactly when "tl;dr" in
    some mix of cases begins there, or begins behind one whitespace rune
    that stands there; the rune in front of the position plays no part.
    The match covers that whitespace rune, the label and every colon,
    hyphen and whitespace rune behind it. *)
Theorem tldrRegex_matches (prev : option rune) (s : gostring) :
  matchAt tldrRegex prev s =
  if labelAt s then Some (5 + span labelTail (skipn 5 s))
  else if startsWith perlSpace s && labelAt (skipn 1 s)
       then Some (6 + span labelTail (skipn 6 s))
       else None.
Proof.
  rewrite matchAt_tldrRegex.
  destruct (labelAt s); [reflexivity|].
  destruct s as [|c s']; reflexivity.
Qed.

(** X18: the header pattern matches exactly at the start of the text or
    behind a newline, where a [#] stands; the match covers the [#]s, the
    whitespace behind them (newlines too), the rest of the line that
    whitespace ends in and its newline, and so ends at the end of the text
    or behind a newline. *)
Theorem headerRegex_matches (prev : option rune) (s : gostring) :
  matchAt headerRegex prev s =
    (if lineStart prev && startsWith isHash s
     then Some (headerLength s) else None) /\
  resumesAtLine prev (headerLength s) s.
Proof.
  split; [apply matchAt_headerRegex|apply headerLength_resumes].
Qed.

Section Extras.
Variable World : Type.
Variable E : Collaborators World.
Variable config : Config.

Lemma followed_fetchCalls calls : Forall fetchCall calls -> followed calls = [].
Proof.
  induction 1 as [|c calls Hc _ IH]; [reflexivity|].
  destruct c; simpl in *; try contradiction; exact IH.
Qed.

Lemma generations_fetchCalls calls :
  Forall fetchCall calls -> generations calls = [].
Proof.
  induction 1 as [|c calls Hc _ IH]; [reflexivity|].
  destruct c; simpl in *; try contradiction; exact IH.
Qed.

(** X19: [fetchThread] only reads: whatever the status and the server,
    it posts nothing, follows nobody and asks no generation backend, and
    it makes at most one fetch for each turn of its loop. *)
Theorem fetchThread_only_reads fuel status (w : World) :
  posted (callsOf (fetchThread E fuel status w)) = [] /\
  followed (callsOf (fetchThread E fuel status w)) = [] /\
  generations (callsOf (fetchThread E fuel status w)) = [] /\
  List.length (fetched (callsOf (fetchThread E fuel status w))) <= fuel.
Proof.
  rewrite fetchThread_run.
  assert (Hn : forall fuel cur thread (w : World),
    List.length (fetched (callsOf (fetchThread_loop E fuel cur thread w))) <= fuel).
  { clear. induction fuel as [|fuel IH]; intros [cur|] thread w;
      try (cbn; lia).
    rewrite fetchThread_loop_step.
    assert (Hp : fetched (parseLog E (Status_Content cur)) = []).
    { unfold parseLog. destruct (html_Parse E (Status_Content cur)); reflexivity. }
    destruct (Status_InReplyToID cur) as [v|]; cbn [after callsOf].
    - destruct (GetStatus E (parentID v) w) as [[p|err] w1]; cbn [after callsOf].
      + specialize (IH (Some p) (line E cur :: thread) w1).
        destruct (fetchThread_loop E fuel (Some p) (line E cur :: thread) w1);
          cbn [after callsOf] in *; rewrite ?fetched_app, ?Hp;
          cbn [app fetched List.length]; lia.
      + rewrite fetched_app, Hp. cbn. lia.
    - rewrite fetched_app, Hp. cbn. lia. }
  pose proof (fetchThread_loop_calls E fuel status [] w) as Hcalls.
  specialize (Hn fuel status [] w).
  destruct (fetchThread_loop E fuel status [] w) as [thread w' calls| |];
    cbn [callsOf] in *.
  - rewrite (posted_fetchCalls Hcalls), (followed_fetchCalls Hcalls),
      (generations_fetchCalls Hcalls). repeat split. exact Hn.
  - contradiction.
  - repeat split. simpl. lia.
Qed.
End Extras.

(** X20: the count of [countWords] is the number of words of the one
    decomposition of the text into whitespace and maximal runs without
    whitespace. *)
Theorem countWords_maximal_runs (text : gostring) (ws : list gostring) :
  (Z.of_nat (List.length text) < 2 ^ 63)%Z ->
  MaximalRuns text ws ->
  countWords text = Z.of_nat (List.length ws).
Proof.
  intros Hlen Hruns. rewrite (countWords_runs _ Hlen).
  rewrite (MaximalRuns_unique Hruns). reflexivity.
Qed.

Lemma follow_back_once_witness :
  Notification_Type (follow bob) = str "follow" /\
  Account_Bot (Notification_Account (follow bob)) = false /\
  followed (callsOf (handleEvent collaborators gemini 0
                       (NotificationEvent (follow bob)) working))
  = [str "8"].
Proof.
  split; [reflexivity|]. split; [reflexivity|].
  exact (proj1 (proj1 (@follow_back_once _ collaborators gemini 0 (follow bob)
                         working eq_refl) eq_refl)).
Defined.

Lemma mention_without_status_panics_witness :
  Notification_Type (bare bob) = str "mention" /\
  Account_Bot (Notification_Account (bare bob)) = false /\
  string_eqb (Account_Acct (Notification_Account (bare bob)))
    (os_Getenv collaborators (str "MASTODON_USERNAME") working) = false /\
  Notification_Status (bare bob) = None /\
  eventLoop collaborators gemini 5
    [NotificationEvent (bare bob); NotificationEvent (follow alice)] working
  = Panic working [].
Proof.
  repeat (split; [reflexivity|]).
  apply mention_without_status_panics; reflexivity.
Defined.

Lemma short_post_left_alone_witness :
  (Account_Bot (Status_Account (longPost 200 (str "public") (str ""))) = true \/
   isLongPost collaborators
     (plainText collaborators
        (Status_Content (longPost 200 (str "public") (str "")))) = false) /\
  posted (callsOf (handleEvent collaborators gemini 0
                     (UpdateEvent (longPost 200 (str "public") (str "")))
                     working)) = [].
Proof.
  assert (H : Account_Bot (Status_Account (longPost 200 (str "public") (str ""))) = true \/
   isLongPost collaborators
     (plainText collaborators
        (Status_Content (longPost 200 (str "public") (str "")))) = false).
  { right. vm_compute. reflexivity. }
  split; [exact H|].
  exact (proj1 (proj2 (@short_post_left_alone _ collaborators gemini 0
                         (longPost 200 (str "public") (str "")) working H))).
Defined.

Lemma summarizeThread_dispatch_witness :
  LLM_Provider unsupported <> str "gemini" /\
  LLM_Provider unsupported <> str "ollama" /\
  summarizeThread collaborators unsupported (str "alice: hi") false working
  = Done (Err (str "unsupported LLM provider: llama")) working [].
Proof.
  assert (H1 : LLM_Provider unsupported <> str "gemini") by discriminate.
  assert (H2 : LLM_Provider unsupported <> str "ollama") by discriminate.
  split; [exact H1|]. split; [exact H2|].
  exact (proj2 (proj2 (@summarizeThread_dispatch _ collaborators unsupported
                         (str "alice: hi") false working)) H1 H2).
Defined.

Lemma reply_addressing_witness :
  Notification_Status (mention bob stC) = Some stC /\
  In (mentionToot (mention bob stC) stC (str "They talked."))
     (posted (callsOf (handleMention collaborators gemini 5
                         (mention bob stC) working))) /\
  Toot_InReplyToID (mentionToot (mention bob stC) stC (str "They talked."))
  = str "102".
Proof.
  assert (H1 : Notification_Status (mention bob stC) = Some stC) by reflexivity.
  assert (H2 : In (mentionToot (mention bob stC) stC (str "They talked."))
     (posted (callsOf (handleMention collaborators gemini 5
                         (mention bob stC) working))))
    by (vm_compute; left; reflexivity).
  split; [exact H1|]. split; [exact H2|].
  exact (proj1 (proj1 (reply_addressing collaborators gemini)
                  5 (mention bob stC) stC working _ H1 H2)).
Defined.

Lemma mention_reply_visibility_witness :
  Notification_Status (mention bob stC) = Some stC /\
  In (mentionToot (mention bob stC) stC (str "They talked."))
     (posted (callsOf (handleMention collaborators gemini 5
                         (mention bob stC) working))) /\
  Status_Visibility stC = str "public" /\
  Toot_Visibility (mentionToot (mention bob stC) stC (str "They talked."))
  = str "unlisted".
Proof.
  assert (H1 : Notification_Status (mention bob stC) = Some stC) by reflexivity.
  assert (H2 : In (mentionToot (mention bob stC) stC (str "They talked."))
     (posted (callsOf (handleMention collaborators gemini 5
                         (mention bob stC) working))))
    by (vm_compute; left; reflexivity).
  split; [exact H1|]. split; [exact H2|]. split; [reflexivity|].
  exact (proj1 (@mention_reply_visibility _ collaborators gemini 5
                  (mention bob stC) stC working _ H1 H2) eq_refl).
Defined.

Lemma fetchThread_cycle_diverges_witness :
  Status_InReplyToID stLoop = Some (str "400") /\
  (forall w, w = looping ->
     exists w', GetStatus collaborators (parentID (str "400")) w = (Ok stLoop, w')
                /\ w' = looping) /\
  fetchThread collaborators 1000 (Some stLoop) looping = OutOfFuel.
Proof.
  assert (H : forall w, w = looping ->
     exists w', GetStatus collaborators (parentID (str "400")) w = (Ok stLoop, w')
                /\ w' = looping).
  { intros w ->. exists looping. split; reflexivity. }
  split; [reflexivity|]. split; [exact H|].
  exact (@fetchThread_cycle_diverges _ collaborators (fun w => w = looping)
           stLoop (str "400") eq_refl H 1000 looping eq_refl).
Defined.

Lemma empty_summary_still_posted_witness :
  cleanResponse (str "TL;DR:") = [] /\
  exists t,
    posted (callsOf (handleMention collaborators gemini 5 (mention bob stC)
                       terse)) = [t] /\
    Toot_Status t = str "@bob TL;DR: ".
Proof.
  split; [reflexivity|].
  exact (@empty_summary_still_posted _ collaborators gemini
           5 (mention bob stC) stC terse
           (strings_Join (List.map (line collaborators) [stA; stB; stC])
              (nl ++ nl))
           terse
           (callsOf (fetchThread collaborators 5 (Some stC) terse))
           (str "TL;DR:") terse
           (callsOf (summarizeThread collaborators gemini
              (strings_Join (List.map (line collaborators) [stA; stB; stC])
                 (nl ++ nl)) false terse))
           eq_refl eq_refl eq_refl eq_refl eq_refl eq_refl).
Defined.

Lemma countWords_maximal_runs_witness :
  (Z.of_nat (List.length (str "so it goes")) < 2 ^ 63)%Z /\
  MaximalRuns (str "so it goes") [str "so"; str "it"; str "goes"] /\
  countWords (str "so it goes") = 3%Z.
Proof.
  assert (H1 : (Z.of_nat (List.length (str "so it goes")) < 2 ^ 63)%Z)
    by (vm_compute; reflexivity).
  assert (H2 : MaximalRuns (str "so it goes") [str "so"; str "it"; str "goes"]).
  { apply (MR_word (sp:=[]) (w:=str "so") (rest:=str " it goes"));
      [constructor | discriminate | repeat constructor | reflexivity |].
    apply (MR_word (sp:=str " ") (w:=str "it") (rest:=str " goes"));
      [repeat constructor | discriminate | repeat constructor | reflexivity |].
    apply (MR_word (sp:=str " ") (w:=str "goes") (rest:=[]));
      [repeat constructor | discriminate | repeat constructor | reflexivity |].
    constructor. constructor. }
  split; [exact H1|]. split; [exact H2|].
  exact (countWords_maximal_runs H1 H2).
Defined.
